(** * PLCrashFrameWalker_x86_64: the x86-64 frame cursor

    A shallow embedding of [Source/PLCrashFrameWalker_x86_64.c] (the
    libunwind-based walker with the stack-scan fallback) and the properties
    of the cursor, the stack scanner, the address validator and the register
    accessor.

    Conventions.
    - [uintptr_t], [plframe_greg_t], [unw_word_t] and [size_t] are 64-bit
      unsigned: a value is a [Z] in [0, 2^64) and additions are reduced
      modulo [2^64] ([wadd]).
    - [cursor->nframe] is a C [int]; [++] on it is modelled in [Z] (signed
      overflow is undefined in C, it would take 2^31 frames to reach it).
    - The cursor is mutated through a pointer: the functions run in a small
      state monad over the cursor, which also keeps a log of the calls made
      to the collaborators (libunwind, the image list, the fault-tolerant
      memory read).
    - The scan loop of [plframe_cursor_scan_stack] is driven by fuel: one
      unit per evaluation of the loop condition. *)

From Stdlib Require Import ZArith List Bool Lia.
From Stdlib.Strings Require Import Byte.
From Stdlib Require Strings.String.
Import String.StringSyntax.
Delimit Scope string_scope with string.
Import ListNotations.
Open Scope Z_scope.

(** ** Machine words *)

Definition word_modulus : Z := 2 ^ 64.

(** Unsigned 64-bit addition. *)
Definition wadd (a b : Z) : Z := (a + b) mod word_modulus.

(** [sizeof(plframe_greg_t)] *)
Definition sizeof_greg : Z := 8.

(** The mask of [plframe_cursor_address_looks_valid]. *)
Definition upper32_mask : Z := 0xFFFFFFFF00000000.

(** ** Result codes and register identifiers *)

(** Modelled from the spec: [plframe_error_t] is declared in
    PLCrashFrameWalker.h, which is not part of the sources at hand.  The
    enumerators are the ones the source file names; [PLFRAME_EUNWIND] stands
    for the spec's passthrough provider error. *)
Inductive plframe_error_t : Type :=
| PLFRAME_ESUCCESS
| PLFRAME_ENOFRAME
| PLFRAME_EBADFRAME
| PLFRAME_ENOTSUP
| PLFRAME_INTERNAL
| PLFRAME_EUNWIND (code : Z).

Definition plframe_error_eqb (a b : plframe_error_t) : bool :=
  match a, b with
  | PLFRAME_ESUCCESS, PLFRAME_ESUCCESS => true
  | PLFRAME_ENOFRAME, PLFRAME_ENOFRAME => true
  | PLFRAME_EBADFRAME, PLFRAME_EBADFRAME => true
  | PLFRAME_ENOTSUP, PLFRAME_ENOTSUP => true
  | PLFRAME_INTERNAL, PLFRAME_INTERNAL => true
  | PLFRAME_EUNWIND x, PLFRAME_EUNWIND y => x =? y
  | _, _ => false
  end.

(** The register identifiers the switch statements of the source name;
    [PLFRAME_X86_64_OTHER] is any other value of the integer type
    [plframe_regnum_t] (it takes the [default] branch). *)
Inductive plframe_regnum_t : Type :=
| PLFRAME_X86_64_RAX | PLFRAME_X86_64_RBX | PLFRAME_X86_64_RCX
| PLFRAME_X86_64_RDX | PLFRAME_X86_64_RDI | PLFRAME_X86_64_RSI
| PLFRAME_X86_64_RBP | PLFRAME_X86_64_RSP
| PLFRAME_X86_64_R10 | PLFRAME_X86_64_R11 | PLFRAME_X86_64_R12
| PLFRAME_X86_64_R13 | PLFRAME_X86_64_R14 | PLFRAME_X86_64_R15
| PLFRAME_X86_64_RIP
| PLFRAME_X86_64_RFLAGS | PLFRAME_X86_64_CS | PLFRAME_X86_64_FS
| PLFRAME_X86_64_GS
| PLFRAME_X86_64_OTHER (id : Z).

(** libunwind's register numbers, as far as the source uses them. *)
Inductive unw_regnum_t : Type :=
| UNW_X86_64_RAX | UNW_X86_64_RBX | UNW_X86_64_RCX | UNW_X86_64_RDX
| UNW_X86_64_RDI | UNW_X86_64_RSI | UNW_X86_64_RBP | UNW_X86_64_RSP
| UNW_X86_64_R10 | UNW_X86_64_R11 | UNW_X86_64_R12 | UNW_X86_64_R13
| UNW_X86_64_R14 | UNW_X86_64_R15
| UNW_REG_IP.

(** [UNW_ESUCCESS] *)
Definition UNW_ESUCCESS : Z := 0.

(** ** The thread-state snapshot *)

(** [x86_thread_state64_t], the [__ss] member of the machine context. *)
Record x86_thread_state64_t : Type := mk_thread_state {
  __rax : Z; __rbx : Z; __rcx : Z; __rdx : Z;
  __rdi : Z; __rsi : Z; __rbp : Z; __rsp : Z;
  __r8 : Z;  __r9 : Z;  __r10 : Z; __r11 : Z;
  __r12 : Z; __r13 : Z; __r14 : Z; __r15 : Z;
  __rip : Z; __rflags : Z; __cs : Z; __fs : Z; __gs : Z
}.

(** [state.__rip = v] on a copy of the state. *)
Definition with_rip (s : x86_thread_state64_t) (v : Z) : x86_thread_state64_t :=
  mk_thread_state (__rax s) (__rbx s) (__rcx s) (__rdx s)
                  (__rdi s) (__rsi s) (__rbp s) (__rsp s)
                  (__r8 s) (__r9 s) (__r10 s) (__r11 s)
                  (__r12 s) (__r13 s) (__r14 s) (__r15 s)
                  v (__rflags s) (__cs s) (__fs s) (__gs s).

(** ** The image list *)

(** What the validator reads of an entry: [entry->image.header] and
    [entry->image.textsize]. *)
Record plcrash_async_image_t : Type := mk_image {
  header : Z;
  textsize : Z
}.

(** ** The collaborators *)

(** The unwind provider (libunwind).  [unw_step] and [unw_init_local] give
    the [int] they return and the provider's new walking state;
    [unw_get_reg] gives the [int] it returns and the word it stores through
    its out-parameter (the walker ignores the [int] when it reads
    [UNW_REG_IP], that is, it relies on the store). *)
Class UnwindProvider : Type := {
  unw_cursor_t : Type;
  unw_init_local : x86_thread_state64_t -> Z * unw_cursor_t;
  unw_step : unw_cursor_t -> Z * unw_cursor_t;
  unw_get_reg : unw_cursor_t -> unw_regnum_t -> Z * Z
}.

(** The rest of what the file calls and does not define: the translation of
    libunwind's error codes, and the memory behind the fault-tolerant read
    ([None] is an unmapped byte). *)
Class AsyncSupport : Type := {
  plframe_error_from_unwerror : Z -> plframe_error_t;
  mem : Z -> option byte
}.

(** Calls that leave the walker, in the order they are made. *)
Inductive event : Type :=
| EvUnwInitLocal
| EvUnwStep
| EvUnwGetReg (r : unw_regnum_t)
| EvReadAddr (loc : Z)
| EvImageListSetReading (b : bool)
| EvImageListNext
| EvScanStack.

Definition is_image_list_event (e : event) : bool :=
  match e with
  | EvImageListSetReading _ | EvImageListNext => true
  | _ => false
  end.

Definition is_unw_event (e : event) : bool :=
  match e with
  | EvUnwInitLocal | EvUnwStep | EvUnwGetReg _ => true
  | _ => false
  end.

Definition is_read_event (e : event) : bool :=
  match e with
  | EvReadAddr _ => true
  | _ => false
  end.

Definition is_scan_event (e : event) : bool :=
  match e with
  | EvScanStack => true
  | _ => false
  end.

(** ** The cursor *)

Section Cursor.
Context {UP : UnwindProvider}.

(** [plframe_cursor_t]: the fields the source file touches.  [uap] is the
    general-purpose state [cursor->uap->uc_mcontext->__ss] the cursor
    points to, [image_list] the entries of the list it borrows. *)
Record plframe_cursor_t : Type := mk_cursor {
  uap : x86_thread_state64_t;
  nframe : Z;
  fp0 : Z;
  image_list : list plcrash_async_image_t;
  endstack : bool;
  last_unwind_address : Z;
  last_stack_pointer : Z;
  last_valid_frame : Z;
  unwcrsr : unw_cursor_t
}.

Definition set_nframe (c : plframe_cursor_t) (v : Z) : plframe_cursor_t :=
  mk_cursor (uap c) v (fp0 c) (image_list c) (endstack c)
            (last_unwind_address c) (last_stack_pointer c)
            (last_valid_frame c) (unwcrsr c).

Definition set_endstack (c : plframe_cursor_t) (v : bool) : plframe_cursor_t :=
  mk_cursor (uap c) (nframe c) (fp0 c) (image_list c) v
            (last_unwind_address c) (last_stack_pointer c)
            (last_valid_frame c) (unwcrsr c).

Definition set_last_unwind_address (c : plframe_cursor_t) (v : Z)
  : plframe_cursor_t :=
  mk_cursor (uap c) (nframe c) (fp0 c) (image_list c) (endstack c)
            v (last_stack_pointer c) (last_valid_frame c) (unwcrsr c).

Definition set_last_stack_pointer (c : plframe_cursor_t) (v : Z)
  : plframe_cursor_t :=
  mk_cursor (uap c) (nframe c) (fp0 c) (image_list c) (endstack c)
            (last_unwind_address c) v (last_valid_frame c) (unwcrsr c).

Definition set_last_valid_frame (c : plframe_cursor_t) (v : Z)
  : plframe_cursor_t :=
  mk_cursor (uap c) (nframe c) (fp0 c) (image_list c) (endstack c)
            (last_unwind_address c) (last_stack_pointer c) v (unwcrsr c).

Definition set_unwcrsr (c : plframe_cursor_t) (v : unw_cursor_t)
  : plframe_cursor_t :=
  mk_cursor (uap c) (nframe c) (fp0 c) (image_list c) (endstack c)
            (last_unwind_address c) (last_stack_pointer c)
            (last_valid_frame c) v.

(** *** The monad: the cursor, the call log, and running out of fuel *)

Record world : Type := mk_world {
  cur : plframe_cursor_t;
  log : list event
}.

(** [None] is a computation cut short by the fuel; the world reached so
    far is kept. *)
Definition M (A : Type) : Type := world -> option A * world.

Definition ret {A} (a : A) : M A := fun w => (Some a, w).

Definition bind {A B} (m : M A) (k : A -> M B) : M B :=
  fun w =>
    match m w with
    | (Some a, w') => k a w'
    | (None, w') => (None, w')
    end.

Definition out_of_fuel {A} : M A := fun w => (None, w).

Definition get_cursor : M plframe_cursor_t := fun w => (Some (cur w), w).

Definition update (f : plframe_cursor_t -> plframe_cursor_t) : M unit :=
  fun w => (Some tt, mk_world (f (cur w)) (log w)).

Definition emit (e : event) : M unit :=
  fun w => (Some tt, mk_world (cur w) (log w ++ [e])).

End Cursor.

Arguments plframe_cursor_t {UP}.
Arguments world {UP}.
Arguments M {UP} A.

Declare Scope walker_scope.
Delimit Scope walker_scope with walker.
Notation "x <- m ;; k" := (bind m (fun x => k))
  (at level 61, m at next level, right associativity) : walker_scope.
Notation "m ;; k" := (bind m (fun _ => k))
  (at level 61, right associativity) : walker_scope.
Open Scope walker_scope.

(** ** The functions of the source file *)

Section Walker.
Context {UP : UnwindProvider} {AS : AsyncSupport}.

(** Modelled from the spec: [plframe_read_addr] is defined outside the
    sources at hand; it is the fault-tolerant read
    [readMemory(address, length) -> bytes | fault]: the bytes at
    [addr .. addr+len-1], or a fault when one of them is unmapped. *)
Fixpoint plframe_read_addr (addr : Z) (len : nat) : option (list byte) :=
  match len with
  | O => Some []
  | S len' =>
      match mem addr, plframe_read_addr (addr + 1) len' with
      | Some b, Some bs => Some (b :: bs)
      | _, _ => None
      end
  end.

(** The value of a little-endian object of type [plframe_greg_t]. *)
Fixpoint le_decode (bs : list byte) : Z :=
  match bs with
  | [] => 0
  | b :: rest => Z.of_N (Byte.to_N b) + 256 * le_decode rest
  end.

(** The test of the loop body:
    [address >= entry->image.header &&
     address <= entry->image.header + entry->image.textsize]. *)
Definition address_in_image (address : Z) (entry : plcrash_async_image_t)
  : bool :=
  (header entry <=? address)
  && (address <=? wadd (header entry) (textsize entry)).

(** The [while] loop over the image list: one call of
    [plcrash_async_image_list_next] per turn, the last one returning
    [NULL]. *)
Fixpoint image_list_loop (address : Z) (l : list plcrash_async_image_t)
  : M bool :=
  match l with
  | [] => emit EvImageListNext ;; ret false
  | entry :: rest =>
      emit EvImageListNext ;;
      if address_in_image address entry
      then ret true
      else image_list_loop address rest
  end.

Definition plframe_cursor_address_looks_valid (address : Z) : M bool :=
  if Z.land address upper32_mask =? 0 then ret false
  else
    cursor <- get_cursor ;;
    emit (EvImageListSetReading true) ;;
    found <- image_list_loop address (image_list cursor) ;;
    emit (EvImageListSetReading false) ;;
    ret found.

(** [const size_t search_space = 500] *)
Definition search_space : Z := 500.

(** The [for] loop of [plframe_cursor_scan_stack], entered at its
    condition with the loop variable [loc]. *)
Fixpoint scan_loop (fuel : nat) (loc : Z) : M plframe_error_t :=
  match fuel with
  | O => out_of_fuel
  | S fuel' =>
      cursor <- get_cursor ;;
      if loc <=? wadd (last_stack_pointer cursor) (search_space * sizeof_greg)
      then
        emit (EvReadAddr loc) ;;
        match plframe_read_addr loc (Z.to_nat sizeof_greg) with
        | None => ret PLFRAME_ENOFRAME
        | Some bytes =>
            let data := le_decode bytes in
            valid <- plframe_cursor_address_looks_valid data ;;
            if (valid : bool) then
              update (fun c => set_last_stack_pointer c (wadd loc sizeof_greg)) ;;
              update (fun c => set_last_valid_frame c data) ;;
              ret PLFRAME_ESUCCESS
            else scan_loop fuel' (wadd loc sizeof_greg)
        end
      else ret PLFRAME_ENOFRAME
  end.

Definition plframe_cursor_scan_stack (fuel : nat) : M plframe_error_t :=
  cursor <- get_cursor ;;
  scan_loop fuel (last_stack_pointer cursor).

(** The word the scanner reads [i] words above [sp], when the read does not
    fault. *)
Definition stack_word (sp i : Z) : option Z :=
  option_map le_decode
    (plframe_read_addr (sp + sizeof_greg * i) (Z.to_nat sizeof_greg)).

(** The value [plframe_cursor_address_looks_valid] computes, as a function
    of the entries of the image list. *)
Definition looks_valid (images : list plcrash_async_image_t) (address : Z)
  : bool :=
  negb (Z.land address upper32_mask =? 0)
  && existsb (address_in_image address) images.

End Walker.

Section Advance.
Context {UP : UnwindProvider} {AS : AsyncSupport}.

(** [plframe_cursor_init]: every field is assigned, then the provider is
    seeded from the general-purpose state. *)
Definition plframe_cursor_init (ss : x86_thread_state64_t)
  (images : list plcrash_async_image_t) : M plframe_error_t :=
  emit EvUnwInitLocal ;;
  let result := unw_init_local ss in
  update (fun _ =>
    mk_cursor ss (-1) 0 images false 0 (__rsp ss) (__rip ss) (snd result)) ;;
  ret (plframe_error_from_unwerror (fst result)).

(** [plframe_cursor_next], with the function called at the duplicate frame
    as an argument.  The inner computation gives [Some e] where the C code
    returns [e] from inside the [if (unwr == 0)] block and [None] where it
    falls through to the last [unw_get_reg]. *)
Definition plframe_cursor_next_with (scan_stack : M plframe_error_t)
  : M plframe_error_t :=
  cursor <- get_cursor ;;
  if nframe cursor =? -1 then
    update (fun c => set_nframe c (nframe c + 1)) ;;
    ret PLFRAME_ESUCCESS
  else if endstack cursor then
    ret PLFRAME_ENOFRAME
  else
    emit (EvUnwGetReg UNW_REG_IP) ;;
    update (fun c => set_last_unwind_address c
                       (snd (unw_get_reg (unwcrsr c) UNW_REG_IP))) ;;
    emit EvUnwStep ;;
    let stepped := unw_step (unwcrsr cursor) in
    let unwr := fst stepped in
    update (fun c => set_unwcrsr c (snd stepped)) ;;
    update (fun c => set_nframe c (nframe c + 1)) ;;
    if unwr <? 0 then
      ret (plframe_error_from_unwerror unwr)
    else
      emit (EvUnwGetReg UNW_REG_IP) ;;
      cursor <- get_cursor ;;
      let reg := snd (unw_get_reg (unwcrsr cursor) UNW_REG_IP) in
      returned <-
        (if unwr =? 0 then
           if last_unwind_address cursor =? reg then
             emit EvScanStack ;;
             result <- scan_stack ;;
             if plframe_error_eqb result PLFRAME_ENOFRAME then
               update (fun c => set_endstack c true) ;;
               ret None
             else if negb (plframe_error_eqb result PLFRAME_ESUCCESS) then
               ret (Some result)
             else
               cursor <- get_cursor ;;
               let state := with_rip (uap cursor) (last_valid_frame cursor) in
               emit EvUnwInitLocal ;;
               let reinit := unw_init_local state in
               update (fun c => set_unwcrsr c (snd reinit)) ;;
               ret (Some (plframe_error_from_unwerror (fst reinit)))
           else
             update (fun c => set_endstack c true) ;;
             ret None
         else ret None) ;;
      match returned with
      | Some e => ret e
      | None =>
          emit (EvUnwGetReg UNW_REG_IP) ;;
          update (fun c => set_last_valid_frame c
                             (snd (unw_get_reg (unwcrsr c) UNW_REG_IP))) ;;
          ret PLFRAME_ESUCCESS
      end.

Definition plframe_cursor_next (fuel : nat) : M plframe_error_t :=
  plframe_cursor_next_with (plframe_cursor_scan_stack fuel).

(** What a [case] of the switch in [plframe_get_reg] does: [break] with a
    libunwind register number, or return. *)
Inductive reg_case : Type :=
| case_break (unwreg : unw_regnum_t)
| case_return (e : plframe_error_t) (stored : option Z).

Definition plframe_get_reg_switch (ss : x86_thread_state64_t)
  (regnum : plframe_regnum_t) : reg_case :=
  match regnum with
  | PLFRAME_X86_64_RAX => case_break UNW_X86_64_RAX
  | PLFRAME_X86_64_RBX => case_break UNW_X86_64_RBX
  | PLFRAME_X86_64_RCX => case_break UNW_X86_64_RCX
  | PLFRAME_X86_64_RDX => case_break UNW_X86_64_RDX
  | PLFRAME_X86_64_RDI => case_break UNW_X86_64_RDI
  | PLFRAME_X86_64_RSI => case_break UNW_X86_64_RSI
  | PLFRAME_X86_64_RBP => case_break UNW_X86_64_RBP
  | PLFRAME_X86_64_RSP => case_break UNW_X86_64_RSP
  | PLFRAME_X86_64_R10 => case_break UNW_X86_64_R10
  | PLFRAME_X86_64_R11 => case_break UNW_X86_64_R11
  | PLFRAME_X86_64_R12 => case_break UNW_X86_64_R12
  | PLFRAME_X86_64_R13 => case_break UNW_X86_64_R13
  | PLFRAME_X86_64_R14 => case_break UNW_X86_64_R14
  | PLFRAME_X86_64_R15 => case_break UNW_X86_64_R15
  | PLFRAME_X86_64_RIP => case_break UNW_REG_IP
  | PLFRAME_X86_64_RFLAGS => case_return PLFRAME_ESUCCESS (Some (__rflags ss))
  | PLFRAME_X86_64_CS => case_return PLFRAME_ESUCCESS (Some (__cs ss))
  | PLFRAME_X86_64_FS => case_return PLFRAME_ESUCCESS (Some (__fs ss))
  | PLFRAME_X86_64_GS => case_return PLFRAME_ESUCCESS (Some (__gs ss))
  | PLFRAME_X86_64_OTHER _ => case_return PLFRAME_ENOTSUP None
  end.

(** [plframe_get_reg]: the result code and the word stored through [reg],
    when one is. *)
Definition plframe_get_reg (regnum : plframe_regnum_t)
  : M (plframe_error_t * option Z) :=
  cursor <- get_cursor ;;
  if negb (nframe cursor =? 0) then
    match regnum with
    | PLFRAME_X86_64_RIP =>
        ret (PLFRAME_ESUCCESS, Some (last_valid_frame cursor))
    | _ => ret (PLFRAME_ENOTSUP, None)
    end
  else
    match plframe_get_reg_switch (uap cursor) regnum with
    | case_return e stored => ret (e, stored)
    | case_break unwreg =>
        emit (EvUnwGetReg unwreg) ;;
        let got := unw_get_reg (unwcrsr cursor) unwreg in
        if fst got =? UNW_ESUCCESS then
          ret (PLFRAME_ESUCCESS, Some (snd got))
        else
          ret (plframe_error_from_unwerror (fst got), None)
    end.

(** [plframe_get_freg] *)
Definition plframe_get_freg (regnum : plframe_regnum_t)
  : M (plframe_error_t * option Z) :=
  ret (PLFRAME_ENOTSUP, None).

(** The cursors a session can hold: the one [plframe_cursor_init] leaves,
    and the one left by a call of [plframe_cursor_next] or of
    [plframe_cursor_scan_stack] (it is not [static]) that returned. *)
Inductive reachable : world -> Prop :=
| reachable_init : forall w0 ss images,
    reachable (snd (plframe_cursor_init ss images w0))
| reachable_next : forall w fuel e w',
    reachable w ->
    plframe_cursor_next fuel w = (Some e, w') ->
    reachable w'
| reachable_scan : forall w fuel e w',
    reachable w ->
    plframe_cursor_scan_stack fuel w = (Some e, w') ->
    reachable w'.

(** The world in which [plframe_cursor_next] enters the scanner: the
    address read before the step is recorded, the provider has stepped, the
    frame is counted, and the log holds the two reads, the step and the
    call. *)
Definition world_at_scan (w : world) : world :=
  let c := cur w in
  let pc0 := snd (unw_get_reg (unwcrsr c) UNW_REG_IP) in
  let stepped := snd (unw_step (unwcrsr c)) in
  mk_world
    (set_nframe (set_unwcrsr (set_last_unwind_address c pc0) stepped)
                (nframe c + 1))
    (log w ++ [EvUnwGetReg UNW_REG_IP; EvUnwStep;
               EvUnwGetReg UNW_REG_IP; EvScanStack]).

(** The cursor after the provider has stepped, before the program counter
    is read again. *)
Definition stepped_cursor (c : plframe_cursor_t) : plframe_cursor_t :=
  set_nframe
    (set_unwcrsr
       (set_last_unwind_address c (snd (unw_get_reg (unwcrsr c) UNW_REG_IP)))
       (snd (unw_step (unwcrsr c))))
    (nframe c + 1).

(** Calls on the image list only. *)
Definition image_events (es : list event) : Prop :=
  Forall (fun e => is_image_list_event e = true) es.

(** What a run of the scan loop can do to the world. *)
Definition scan_effect (w : world) (r : option plframe_error_t) (w' : world)
  : Prop :=
  (exists es, log w' = log w ++ es
              /\ Forall (fun e => is_unw_event e = false
                                  /\ is_scan_event e = false) es)
  /\ match r with
     | None | Some PLFRAME_ENOFRAME => cur w' = cur w
     | Some PLFRAME_ESUCCESS =>
         exists loc data,
           cur w' = set_last_valid_frame
                      (set_last_stack_pointer (cur w) (wadd loc sizeof_greg))
                      data
           /\ looks_valid (image_list (cur w)) data = true
           /\ 0 <= data < word_modulus
     | Some _ => False
     end.

End Advance.

(** ** Register names *)

(** [plframe_get_regname]: the name, or [None] where the C function logs
    the missing name and calls [abort()]. *)
Definition plframe_get_regname (regnum : plframe_regnum_t)
  : option String.string :=
  match regnum with
  | PLFRAME_X86_64_RAX => Some "rax"%string
  | PLFRAME_X86_64_RBX => Some "rbx"%string
  | PLFRAME_X86_64_RCX => Some "rcx"%string
  | PLFRAME_X86_64_RDX => Some "rdx"%string
  | PLFRAME_X86_64_RDI => Some "rdi"%string
  | PLFRAME_X86_64_RSI => Some "rsi"%string
  | PLFRAME_X86_64_RBP => Some "rbp"%string
  | PLFRAME_X86_64_RSP => Some "rsp"%string
  | PLFRAME_X86_64_R10 => Some "r10"%string
  | PLFRAME_X86_64_R11 => Some "r11"%string
  | PLFRAME_X86_64_R12 => Some "r12"%string
  | PLFRAME_X86_64_R13 => Some "r13"%string
  | PLFRAME_X86_64_R14 => Some "r14"%string
  | PLFRAME_X86_64_R15 => Some "r15"%string
  | PLFRAME_X86_64_RIP => Some "rip"%string
  | PLFRAME_X86_64_RFLAGS => Some "rflags"%string
  | PLFRAME_X86_64_CS => Some "cs"%string
  | PLFRAME_X86_64_FS => Some "fs"%string
  | PLFRAME_X86_64_GS => Some "gs"%string
  | PLFRAME_X86_64_OTHER _ => None
  end.

(** ** The reading marker of the image list *)

(** The state of the marker after the calls [es], started with the marker
    at [reading]: [plcrash_async_image_list_set_reading] must flip it and
    [plcrash_async_image_list_next] needs it set; [None] when a call breaks
    that discipline.  The other calls do not touch the list. *)
Fixpoint reading_after (reading : bool) (es : list event) : option bool :=
  match es with
  | [] => Some reading
  | EvImageListSetReading b :: rest =>
      if Bool.eqb b reading then None else reading_after b rest
  | EvImageListNext :: rest =>
      if reading then reading_after reading rest else None
  | _ :: rest => reading_after reading rest
  end.

(** The number of calls of [unw_step] in a log. *)
Definition count_steps (es : list event) : nat :=
  length (filter (fun e => match e with EvUnwStep => true | _ => false end) es).

(** A stretch of the log that leaves the reading marker clear and does not
    step the provider. *)
Definition calm (es : list event) : Prop :=
  reading_after false es = Some false /\ count_steps es = 0%nat.

(** ** Initialisation from a live thread *)

(** The flavors [plframe_cursor_thread_init] asks for. *)
Inductive thread_flavor : Type :=
| x86_THREAD_STATE64
| x86_FLOAT_STATE64
| x86_EXCEPTION_STATE64.

(** [KERN_SUCCESS] *)
Definition KERN_SUCCESS : Z := 0.

(** The buffer a flavor is fetched into. *)
Definition thread_state_data (F E : Type) (flavor : thread_flavor) : Type :=
  match flavor with
  | x86_THREAD_STATE64 => x86_thread_state64_t
  | x86_FLOAT_STATE64 => F
  | x86_EXCEPTION_STATE64 => E
  end.

(** The thread-state provider (Mach).  [thread_get_state] is given the
    thread, the flavor and the buffer as it stands, and gives the
    [kern_return_t] and the buffer as it leaves it.  The floating-point and
    exception states are kept as the provider has them. *)
Class ThreadStateProvider : Type := {
  thread_t : Type;
  x86_float_state64_t : Type;
  x86_exception_state64_t : Type;
  thread_get_state :
    thread_t -> forall flavor : thread_flavor,
    thread_state_data x86_float_state64_t x86_exception_state64_t flavor ->
    Z * thread_state_data x86_float_state64_t x86_exception_state64_t flavor
}.

Section ThreadInit.
Context {UP : UnwindProvider} {AS : AsyncSupport} {TP : ThreadStateProvider}.

Definition set_uap (c : plframe_cursor_t) (v : x86_thread_state64_t)
  : plframe_cursor_t :=
  mk_cursor v (nframe c) (fp0 c) (image_list c) (endstack c)
            (last_unwind_address c) (last_stack_pointer c)
            (last_valid_frame c) (unwcrsr c).

(** The cursor with the storage [plframe_cursor_thread_init] fills:
    [_uap_data.uc_sigmask] and the three members of [_mcontext_data].
    [uap_is_own] says that [cursor->uap] is [&cursor->_uap_data] (with
    [uc_mcontext] at [&cursor->_mcontext_data]): then [uap] of the cursor
    and [_mcontext_data.__ss] are one object.  [fetched] lists the calls of
    [thread_get_state]. *)
Record thread_cursor : Type := mk_thread_cursor {
  tc_world : world;
  uap_is_own : bool;
  _uap_data_sigmask : Z;
  _mcontext_data_ss : x86_thread_state64_t;
  _mcontext_data_fs : x86_float_state64_t;
  _mcontext_data_es : x86_exception_state64_t;
  fetched : list thread_flavor
}.

(** A store into [_mcontext_data.__ss]; it is seen through [cursor->uap]
    when that points to the cursor's own context. *)
Definition store_ss (tc : thread_cursor) (v : x86_thread_state64_t)
  : thread_cursor :=
  mk_thread_cursor
    (if uap_is_own tc
     then mk_world (set_uap (cur (tc_world tc)) v) (log (tc_world tc))
     else tc_world tc)
    (uap_is_own tc) (_uap_data_sigmask tc) v
    (_mcontext_data_fs tc) (_mcontext_data_es tc) (fetched tc).

Definition store_fs (tc : thread_cursor) (v : x86_float_state64_t)
  : thread_cursor :=
  mk_thread_cursor (tc_world tc) (uap_is_own tc) (_uap_data_sigmask tc)
    (_mcontext_data_ss tc) v (_mcontext_data_es tc) (fetched tc).

Definition store_es (tc : thread_cursor) (v : x86_exception_state64_t)
  : thread_cursor :=
  mk_thread_cursor (tc_world tc) (uap_is_own tc) (_uap_data_sigmask tc)
    (_mcontext_data_ss tc) (_mcontext_data_fs tc) v (fetched tc).

Definition store_sigmask (tc : thread_cursor) (v : Z) : thread_cursor :=
  mk_thread_cursor (tc_world tc) (uap_is_own tc) v
    (_mcontext_data_ss tc) (_mcontext_data_fs tc) (_mcontext_data_es tc)
    (fetched tc).

Definition note_fetch (tc : thread_cursor) (flavor : thread_flavor)
  : thread_cursor :=
  mk_thread_cursor (tc_world tc) (uap_is_own tc) (_uap_data_sigmask tc)
    (_mcontext_data_ss tc) (_mcontext_data_fs tc) (_mcontext_data_es tc)
    (fetched tc ++ [flavor]).

(** [plframe_cursor_thread_init].  The [assert]s compare sizes the compiler
    knows; [state_count] is set before each call and not read after it. *)
Definition plframe_cursor_thread_init (thread : thread_t)
  (images : list plcrash_async_image_t) (tc : thread_cursor)
  : option plframe_error_t * thread_cursor :=
  let tc := store_sigmask tc 0 in
  let got := thread_get_state thread x86_THREAD_STATE64 (_mcontext_data_ss tc) in
  let tc := store_ss (note_fetch tc x86_THREAD_STATE64) (snd got) in
  if negb (fst got =? KERN_SUCCESS) then (Some PLFRAME_INTERNAL, tc)
  else
    let got := thread_get_state thread x86_FLOAT_STATE64 (_mcontext_data_fs tc) in
    let tc := store_fs (note_fetch tc x86_FLOAT_STATE64) (snd got) in
    if negb (fst got =? KERN_SUCCESS) then (Some PLFRAME_INTERNAL, tc)
    else
      let got :=
        thread_get_state thread x86_EXCEPTION_STATE64 (_mcontext_data_es tc) in
      let tc := store_es (note_fetch tc x86_EXCEPTION_STATE64) (snd got) in
      if negb (fst got =? KERN_SUCCESS) then (Some PLFRAME_INTERNAL, tc)
      else
        let done := plframe_cursor_init (_mcontext_data_ss tc) images
                      (tc_world tc) in
        (fst done,
         mk_thread_cursor (snd done) true (_uap_data_sigmask tc)
           (_mcontext_data_ss tc) (_mcontext_data_fs tc)
           (_mcontext_data_es tc) (fetched tc)).

End ThreadInit.

(** ** The earlier walker

    The second version of the file: no image list, no scanner; the end of
    the stack is the frame index [-2].  [PL_WALK_STACK_FRAMES_MANUALLY] is
    [0], so the libunwind branches are the ones compiled.  It uses the
    fields [uap], [nframe], [fp0] and [unwcrsr] of the cursor. *)
Module Legacy.
Section LegacyWalker.
Context {UP : UnwindProvider} {AS : AsyncSupport}.

Definition plframe_cursor_next : M plframe_error_t :=
  cursor <- get_cursor ;;
  if nframe cursor =? -1 then
    update (fun c => set_nframe c (nframe c + 1)) ;;
    ret PLFRAME_ESUCCESS
  else if nframe cursor =? -2 then
    ret PLFRAME_ENOFRAME
  else
    emit EvUnwStep ;;
    let stepped := unw_step (unwcrsr cursor) in
    let unwr := fst stepped in
    update (fun c => set_unwcrsr c (snd stepped)) ;;
    update (fun c => set_nframe c (nframe c + 1)) ;;
    if unwr =? 0 then
      update (fun c => set_nframe c (-2)) ;;
      ret PLFRAME_ESUCCESS
    else if unwr <? 0 then
      ret (plframe_error_from_unwerror unwr)
    else
      ret PLFRAME_ESUCCESS.

Definition plframe_get_reg (regnum : plframe_regnum_t)
  : M (plframe_error_t * option Z) :=
  cursor <- get_cursor ;;
  if negb (nframe cursor =? 0) then
    match regnum with
    | PLFRAME_X86_64_RIP =>
        emit (EvUnwGetReg UNW_REG_IP) ;;
        let got := unw_get_reg (unwcrsr cursor) UNW_REG_IP in
        ret (plframe_error_from_unwerror (fst got),
             if fst got =? UNW_ESUCCESS then Some (snd got) else None)
    | _ => ret (PLFRAME_ENOTSUP, None)
    end
  else
    match plframe_get_reg_switch (uap cursor) regnum with
    | case_return e stored => ret (e, stored)
    | case_break unwreg =>
        emit (EvUnwGetReg unwreg) ;;
        let got := unw_get_reg (unwcrsr cursor) unwreg in
        if fst got =? UNW_ESUCCESS then
          ret (PLFRAME_ESUCCESS, Some (snd got))
        else
          ret (plframe_error_from_unwerror (fst got), None)
    end.

End LegacyWalker.
End Legacy.

(** How a cursor of the earlier walker and a cursor of the present one
    stand at the same point of a walk: both before the first frame; or the
    earlier one at its end mark [-2] and the present one with its flag set;
    or both at the same frame with the flag clear. *)
Definition walker_match {UP : UnwindProvider}
  (old new : plframe_cursor_t) : Prop :=
  unwcrsr old = unwcrsr new
  /\ ((nframe old = -1 /\ nframe new = -1 /\ endstack new = false)
      \/ (nframe old = -2 /\ 0 <= nframe new /\ endstack new = true)
      \/ (0 <= nframe old /\ nframe new = nframe old /\ endstack new = false)).

(** A walk over the snapshot [ss] and the image list [images]: the cursor
    [plframe_cursor_init] leaves, then any calls of [plframe_cursor_next]
    and [plframe_cursor_scan_stack] that returned. *)
Inductive session {UP : UnwindProvider} {AS : AsyncSupport}
  (ss : x86_thread_state64_t) (images : list plcrash_async_image_t)
  : world -> Prop :=
| session_init : forall w0,
    session ss images (snd (plframe_cursor_init ss images w0))
| session_next : forall w fuel e w',
    session ss images w ->
    plframe_cursor_next fuel w = (Some e, w') ->
    session ss images w'
| session_scan : forall w fuel e w',
    session ss images w ->
    plframe_cursor_scan_stack fuel w = (Some e, w') ->
    session ss images w'.

(** The number of calls of [plcrash_async_image_list_next] in a log. *)
Definition count_list_next (es : list event) : nat :=
  length (filter (fun e => match e with EvImageListNext => true | _ => false end)
                 es).

(** ** Test doubles

    A provider that replays a script of [(unw_step result, next program
    counter)] pairs and repeats its last frame with [0] when the script is
    over; a memory made of a run of words; and the cursors used to run the
    functions on concrete inputs. *)

Definition scripted_provider (script : list (Z * Z)) : UnwindProvider := {|
  unw_cursor_t := (Z * list (Z * Z))%type;
  unw_init_local := fun ss => (0, (__rip ss, script));
  unw_step := fun c =>
    match snd c with
    | [] => (0, c)
    | (r, pc) :: rest => (r, (pc, rest))
    end;
  unw_get_reg := fun c r =>
    match r with
    | UNW_REG_IP => (0, fst c)
    | _ => (0, 0)
    end
|}.

Definition byte_of_word (v : Z) (k : Z) : option byte :=
  Byte.of_N (Z.to_N ((v / 256 ^ k) mod 256)).

(** The memory that maps [ws] at [base], little-endian, and nothing else. *)
Definition mem_of_words (base : Z) (ws : list Z) (addr : Z) : option byte :=
  if (base <=? addr) && (addr <? base + 8 * Z.of_nat (length ws)) then
    byte_of_word (nth (Z.to_nat ((addr - base) / 8)) ws 0) ((addr - base) mod 8)
  else None.

Definition support_with (m : Z -> option byte) : AsyncSupport := {|
  plframe_error_from_unwerror := fun r =>
    if r =? 0 then PLFRAME_ESUCCESS else PLFRAME_EUNWIND r;
  mem := m
|}.

(** Nothing is mapped. *)
Definition unmapped : AsyncSupport := support_with (fun _ => None).

Definition test_state : x86_thread_state64_t :=
  mk_thread_state 1 2 3 4 5 6 0x7fff5fbff100 0x7fff5fbff000
                  8 9 10 11 12 13 14 15
                  0x100000a00 0x246 0x2b 0 0.

(** The program counter the test cursors stand at. *)
Definition test_pc : Z := 0x100000a00.

Definition test_images : list plcrash_async_image_t :=
  [mk_image 0x100000000 0x1000].

(** A cursor at frame [n] over [test_state] whose provider stands at [pc]
    with [script] left to replay. *)
Definition test_cursor (script : list (Z * Z)) (n : Z) (pc : Z)
  : @plframe_cursor_t (scripted_provider script) :=
  @mk_cursor (scripted_provider script)
    test_state n 0 test_images false 0 (__rsp test_state) pc (pc, script).

Definition test_world (script : list (Z * Z)) (n : Z) (pc : Z)
  : @world (scripted_provider script) :=
  @mk_world (scripted_provider script) (test_cursor script n pc) [].

(** A stack of 500 null words followed by an address inside the image. *)
Definition off_by_one_stack : list Z := repeat 0 500 ++ [0x100000f00].

Definition off_by_one_support : AsyncSupport :=
  support_with (mem_of_words (__rsp test_state) off_by_one_stack).

(** A stack whose third word is an address inside the image. *)
Definition small_stack : list Z := [0; 0x7fff5fbff200; 0x100000f00; 0].

Definition small_support : AsyncSupport :=
  support_with (mem_of_words (__rsp test_state) small_stack).

(** The world of a session over [test_state]: initialised, advanced to
    frame 0, and advanced once more with a provider that is done on a new
    program counter. *)
Definition end_world : @world (scripted_provider [(0, 0x100000b00)]) :=
  snd (@plframe_cursor_next (scripted_provider [(0, 0x100000b00)]) unmapped 10
         (snd (@plframe_cursor_next (scripted_provider [(0, 0x100000b00)])
                 unmapped 10
                 (snd (@plframe_cursor_init
                         (scripted_provider [(0, 0x100000b00)]) unmapped
                         test_state test_images
                         (test_world [(0, 0x100000b00)] 7 0)))))).

(** A scanner that fails. *)
Definition failing_scanner {UP : UnwindProvider} : M plframe_error_t :=
  ret PLFRAME_EBADFRAME.

(** A thread-state provider that answers the three flavors with the given
    [kern_return_t] values and delivers [test_state] as the general-purpose
    state. *)
Definition scripted_threads (kr_ss kr_fs kr_es : Z) : ThreadStateProvider := {|
  thread_t := unit;
  x86_float_state64_t := unit;
  x86_exception_state64_t := unit;
  thread_get_state := fun _ flavor =>
    match flavor as f
          return thread_state_data unit unit f
                 -> Z * thread_state_data unit unit f with
    | x86_THREAD_STATE64 => fun _ => (kr_ss, test_state)
    | x86_FLOAT_STATE64 => fun old => (kr_fs, old)
    | x86_EXCEPTION_STATE64 => fun old => (kr_es, old)
    end
|}.

(** A cursor that has finished an earlier walk, with the storage of
    [plframe_cursor_thread_init] not yet in use. *)
Definition used_thread_cursor (kr_ss kr_fs kr_es : Z)
  : @thread_cursor (scripted_provider []) (scripted_threads kr_ss kr_fs kr_es) :=
  @mk_thread_cursor (scripted_provider []) (scripted_threads kr_ss kr_fs kr_es)
    (@mk_world (scripted_provider [])
       (set_endstack (test_cursor [] 4 test_pc) true) [])
    false 0xffff (with_rip test_state 0) tt tt [].

(** The test cursor with its scan watermark at [sp]. *)
Definition stack_world (sp : Z) : @world (scripted_provider []) :=
  @mk_world (scripted_provider [])
    (set_last_stack_pointer (test_cursor [] 1 test_pc) sp) [].

(** The last word of the address space holds an address inside the image;
    nothing else is mapped. *)
Definition top_support : AsyncSupport :=
  support_with (mem_of_words 0xfffffffffffffff8 [0x100000f00]).

(** Every byte is mapped and null. *)
Definition zero_filled : AsyncSupport := support_with (fun _ => Some x00).

(** A stack of two words, neither inside the image, with nothing mapped
    above them. *)
Definition short_stack : list Z := [0; 0x7fff5fbff200].

Definition short_support : AsyncSupport :=
  support_with (mem_of_words (__rsp test_state) short_stack).

(** ** Proof steps for the monad *)

Ltac mstep :=
  unfold bind, ret, get_cursor, update, emit, out_of_fuel;
  cbn [cur log fst snd].

Ltac fields :=
  cbn [set_nframe set_unwcrsr set_last_unwind_address set_endstack
       set_last_valid_frame set_last_stack_pointer
       nframe endstack unwcrsr last_unwind_address uap last_valid_frame
       last_stack_pointer image_list fp0 cur log fst snd].

(** ** Machine-word facts *)

Lemma wadd_small (a b : Z) :
  0 <= a + b < word_modulus -> wadd a b = a + b.
Proof. intros H. unfold wadd. apply Z.mod_small. exact H. Qed.

Lemma upper32_mask_bits (n : Z) :
  0 <= n -> Z.testbit upper32_mask n = (32 <=? n) && (n <? 64).
Proof.
  intros Hn.
  change upper32_mask with (Z.ones 32 * 2 ^ 32).
  destruct (Z.leb_spec 32 n) as [Hge | Hlt]; cbn [andb].
  - rewrite Z.mul_pow2_bits by lia.
    destruct (Z.ltb_spec n 64) as [Hlt | Hge64].
    + apply Z.ones_spec_low. lia.
    + apply Z.ones_spec_high. lia.
  - apply Z.mul_pow2_bits_low. lia.
Qed.

Lemma upper32_zero_iff (a : Z) :
  0 <= a < word_modulus ->
  (Z.land a upper32_mask = 0 <-> a < 2 ^ 32).
Proof.
  unfold word_modulus. intros [Ha0 Ha].
  split.
  - intros Hland.
    destruct (Z_lt_ge_dec a (2 ^ 32)) as [Hlt | Hge]; [exact Hlt | exfalso].
    assert (Hpos : 0 < a) by lia.
    assert (Hlo : 32 <= Z.log2 a) by (apply Z.log2_le_pow2; lia).
    assert (Hhi : Z.log2 a < 64) by (apply Z.log2_lt_pow2; lia).
    assert (Hbit : Z.testbit (Z.land a upper32_mask) (Z.log2 a) = true).
    { rewrite Z.land_spec, Z.bit_log2 by lia.
      rewrite upper32_mask_bits by lia.
      destruct (Z.leb_spec 32 (Z.log2 a)); destruct (Z.ltb_spec (Z.log2 a) 64);
        simpl; try reflexivity; lia. }
    rewrite Hland, Z.bits_0 in Hbit. discriminate.
  - intros Hlt.
    apply Z.bits_inj'. intros n Hn.
    rewrite Z.land_spec, Z.bits_0, upper32_mask_bits by lia.
    destruct (Z.leb_spec 32 n) as [Hge | Hlow]; cbn [andb].
    + destruct (Z.eq_dec a 0) as [-> | Hne].
      * rewrite Z.bits_0. reflexivity.
      * rewrite Z.bits_above_log2; [reflexivity | lia |].
        apply Z.log2_lt_pow2; [lia |].
        apply Z.lt_le_trans with (2 ^ 32); [lia |].
        apply Z.pow_le_mono_r; lia.
    + apply andb_false_r.
Qed.

Lemma le_decode_range (bs : list byte) :
  0 <= le_decode bs < 256 ^ Z.of_nat (length bs).
Proof.
  induction bs as [| b rest IH].
  - simpl. lia.
  - cbn [le_decode length].
    rewrite Nat2Z.inj_succ, Z.pow_succ_r by lia.
    pose proof (Byte.to_N_bounded b) as Hb.
    assert (0 <= Z.of_N (Byte.to_N b) <= 255) by lia.
    lia.
Qed.

Section ReadFacts.
Context {AS : AsyncSupport}.

Lemma plframe_read_addr_length (len : nat) :
  forall addr bs, plframe_read_addr addr len = Some bs -> length bs = len.
Proof.
  induction len as [| len IH]; intros addr bs H; simpl in H.
  - injection H as <-. reflexivity.
  - destruct (mem addr); [| discriminate].
    destruct (plframe_read_addr (addr + 1) len) eqn:E; [| discriminate].
    injection H as <-. simpl. f_equal. eapply IH. exact E.
Qed.

Lemma read_word_range (addr : Z) (bs : list byte) :
  plframe_read_addr addr (Z.to_nat sizeof_greg) = Some bs ->
  0 <= le_decode bs < word_modulus.
Proof.
  intros H. apply plframe_read_addr_length in H.
  pose proof (le_decode_range bs) as R. rewrite H in R.
  exact R.
Qed.

End ReadFacts.

(** ** The validator and the scanner *)

Section ScanFacts.
Context {UP : UnwindProvider} {AS : AsyncSupport}.

Lemma world_eta (w : world) : mk_world (cur w) (log w ++ []) = w.
Proof. destruct w as [c l]. cbn. rewrite app_nil_r. reflexivity. Qed.

Lemma image_list_loop_spec (address : Z) (l : list plcrash_async_image_t) :
  forall w, exists es,
    image_list_loop address l w
    = (Some (existsb (address_in_image address) l),
       mk_world (cur w) (log w ++ es))
    /\ image_events es /\ es <> [].
Proof.
  assert (Hone : image_events [EvImageListNext]).
  { constructor; [reflexivity | constructor]. }
  induction l as [| entry rest IH]; intros w; cbn [image_list_loop existsb].
  - exists [EvImageListNext]. mstep.
    split; [reflexivity | split; [exact Hone | discriminate]].
  - mstep. destruct (address_in_image address entry); cbn [orb].
    + exists [EvImageListNext].
      split; [reflexivity | split; [exact Hone | discriminate]].
    + destruct (IH (mk_world (cur w) (log w ++ [EvImageListNext])))
        as (es & Heq & Hev & _).
      exists (EvImageListNext :: es). rewrite Heq. cbn [cur log].
      rewrite <- app_assoc. cbn [app].
      split; [reflexivity | split; [| discriminate]].
      constructor; [reflexivity | exact Hev].
Qed.

Lemma looks_valid_spec (address : Z) (w : world) :
  exists es,
    plframe_cursor_address_looks_valid address w
    = (Some (looks_valid (image_list (cur w)) address),
       mk_world (cur w) (log w ++ es))
    /\ image_events es
    /\ (Z.land address upper32_mask = 0 <-> es = []).
Proof.
  unfold plframe_cursor_address_looks_valid, looks_valid.
  destruct (Z.eqb_spec (Z.land address upper32_mask) 0) as [Hz | Hnz].
  - exists []. mstep. rewrite world_eta. cbn [negb andb].
    split; [reflexivity | split; [constructor |]].
    split; intros _; [reflexivity | exact Hz].
  - mstep.
    destruct (image_list_loop_spec address (image_list (cur w))
                (mk_world (cur w) (log w ++ [EvImageListSetReading true])))
      as (es & Heq & Hev & _).
    rewrite Heq. cbn [cur log fst snd]. cbn [negb andb].
    exists (EvImageListSetReading true :: es ++ [EvImageListSetReading false]).
    split; [| split].
    + f_equal. f_equal. rewrite <- !app_assoc. reflexivity.
    + constructor; [reflexivity |].
      apply Forall_app. split; [exact Hev |].
      constructor; [reflexivity | constructor].
    + split; [intros Hz; contradiction | discriminate].
Qed.

Lemma looks_valid_result (address : Z) (w : world) :
  fst (plframe_cursor_address_looks_valid address w)
  = Some (looks_valid (image_list (cur w)) address).
Proof.
  destruct (looks_valid_spec address w) as (es & Heq & _).
  rewrite Heq. reflexivity.
Qed.

Lemma image_events_quiet (es : list event) :
  image_events es ->
  Forall (fun e => is_unw_event e = false /\ is_scan_event e = false) es.
Proof.
  unfold image_events. intros H. eapply Forall_impl; [| exact H].
  intros e He. destruct e; cbn in *; try discriminate; split; reflexivity.
Qed.

Lemma scan_loop_effect (fuel : nat) :
  forall loc w, scan_effect w (fst (scan_loop fuel loc w))
                          (snd (scan_loop fuel loc w)).
Proof.
  induction fuel as [| fuel IH]; intros loc w; cbn [scan_loop].
  - mstep. split; [exists []; rewrite app_nil_r; split; [reflexivity | constructor] | reflexivity].
  - mstep.
    destruct (loc <=? wadd (last_stack_pointer (cur w)) (search_space * sizeof_greg)).
    2:{ cbn [fst snd]. split; [| reflexivity].
        exists []. rewrite app_nil_r. split; [reflexivity | constructor]. }
    destruct (plframe_read_addr loc (Z.to_nat sizeof_greg)) as [bytes |] eqn:Hread.
    2:{ cbn [fst snd cur log]. split; [| reflexivity].
        exists [EvReadAddr loc]. split; [reflexivity |].
        constructor; [split; reflexivity | constructor]. }
    destruct (looks_valid_spec (le_decode bytes)
                (mk_world (cur w) (log w ++ [EvReadAddr loc])))
      as (es & Heq & Hev & _).
    rewrite Heq. cbn [cur log fst snd].
    destruct (looks_valid (image_list (cur w)) (le_decode bytes)) eqn:Hvalid.
    + cbn [fst snd cur log]. split.
      * exists (EvReadAddr loc :: es). rewrite <- app_assoc. split; [reflexivity |].
        constructor; [split; reflexivity | apply image_events_quiet; exact Hev].
      * exists loc, (le_decode bytes).
        split; [reflexivity | split; [exact Hvalid |]].
        eapply read_word_range; exact Hread.
    + specialize (IH (wadd loc sizeof_greg)
                     (mk_world (cur w) ((log w ++ [EvReadAddr loc]) ++ es))).
      destruct IH as [(es' & Hlog & Hquiet) Hcur]. split.
      * exists (EvReadAddr loc :: es ++ es'). rewrite Hlog. cbn [log].
        rewrite <- !app_assoc. split; [reflexivity |].
        constructor; [split; reflexivity |].
        apply Forall_app. split; [apply image_events_quiet; exact Hev | exact Hquiet].
      * exact Hcur.
Qed.

Lemma scan_stack_effect (fuel : nat) (w : world) :
  scan_effect w (fst (plframe_cursor_scan_stack fuel w))
                (snd (plframe_cursor_scan_stack fuel w)).
Proof.
  unfold plframe_cursor_scan_stack. mstep. apply scan_loop_effect.
Qed.

Lemma scan_stack_keeps_nframe (fuel : nat) (w : world) :
  nframe (cur (snd (plframe_cursor_scan_stack fuel w))) = nframe (cur w).
Proof.
  destruct (scan_stack_effect fuel w) as [_ Hcur].
  destruct (fst (plframe_cursor_scan_stack fuel w)) as [[| | | | |] |];
    try contradiction; try (rewrite Hcur; reflexivity).
  destruct Hcur as (loc & data & -> & _). reflexivity.
Qed.

Lemma scan_stack_keeps_uap (fuel : nat) (w : world) :
  uap (cur (snd (plframe_cursor_scan_stack fuel w))) = uap (cur w).
Proof.
  destruct (scan_stack_effect fuel w) as [_ Hcur].
  destruct (fst (plframe_cursor_scan_stack fuel w)) as [[| | | | |] |];
    try contradiction; try (rewrite Hcur; reflexivity).
  destruct Hcur as (loc & data & -> & _). reflexivity.
Qed.

Lemma scan_stack_keeps_endstack (fuel : nat) (w : world) :
  endstack (cur (snd (plframe_cursor_scan_stack fuel w))) = endstack (cur w).
Proof.
  destruct (scan_stack_effect fuel w) as [_ Hcur].
  destruct (fst (plframe_cursor_scan_stack fuel w)) as [[| | | | |] |];
    try contradiction; try (rewrite Hcur; reflexivity).
  destruct Hcur as (loc & data & -> & _). reflexivity.
Qed.

Lemma image_events_no_read (es : list event) :
  image_events es -> filter is_read_event es = [].
Proof.
  induction 1 as [| e es He _ IH]; [reflexivity |].
  cbn [filter]. destruct e; cbn in He; try discriminate; exact IH.
Qed.

(** Fuel that covers the window is enough, and every turn of the loop
    reads one word. *)
Lemma scan_loop_bounded (fuel : nat) :
  forall loc w,
    0 <= last_stack_pointer (cur w) <= loc ->
    last_stack_pointer (cur w) + search_space * sizeof_greg + sizeof_greg
      < word_modulus ->
    (1 <= fuel)%nat ->
    last_stack_pointer (cur w) + search_space * sizeof_greg - loc
      < sizeof_greg * (Z.of_nat fuel - 1) ->
    fst (scan_loop fuel loc w) <> None
    /\ exists es,
         log (snd (scan_loop fuel loc w)) = log w ++ es
         /\ sizeof_greg * Z.of_nat (length (filter is_read_event es))
            <= Z.max 0 (last_stack_pointer (cur w)
                        + search_space * sizeof_greg - loc + sizeof_greg).
Proof.
  induction fuel as [| fuel IH]; intros loc w Hsp Hwin Hfuel Hmeasure; [lia |].
  cbn [scan_loop]. mstep.
  rewrite (wadd_small (last_stack_pointer (cur w)))
    by (unfold search_space, sizeof_greg in *; lia).
  destruct (Z.leb_spec loc
              (last_stack_pointer (cur w) + search_space * sizeof_greg))
    as [Hin | Hout].
  2:{ cbn [fst snd]. split; [discriminate |].
      exists []. rewrite app_nil_r. split; [reflexivity |].
      cbn [filter length]. unfold sizeof_greg. lia. }
  destruct (plframe_read_addr loc (Z.to_nat sizeof_greg)) as [bytes |].
  2:{ cbn [fst snd log]. split; [discriminate |].
      exists [EvReadAddr loc]. split; [reflexivity |].
      cbn [filter is_read_event length]. unfold sizeof_greg in *. lia. }
  destruct (looks_valid_spec (le_decode bytes)
              (mk_world (cur w) (log w ++ [EvReadAddr loc])))
    as (es & Heq & Hev & _).
  rewrite Heq. cbn [cur log fst snd].
  destruct (looks_valid (image_list (cur w)) (le_decode bytes)).
  - cbn [fst snd log]. split; [discriminate |].
    exists (EvReadAddr loc :: es). rewrite <- app_assoc.
    split; [reflexivity |].
    cbn [filter is_read_event]. rewrite (image_events_no_read es Hev).
    cbn [length]. unfold sizeof_greg in *. lia.
  - rewrite (wadd_small loc) by (unfold search_space, sizeof_greg in *; lia).
    destruct (IH (loc + sizeof_greg)
                 (mk_world (cur w) ((log w ++ [EvReadAddr loc]) ++ es)))
      as (Hres & es' & Hlog & Hcount); cbn [cur log];
      try (unfold search_space, sizeof_greg in *; lia).
    cbn [cur log] in Hlog, Hcount.
    split; [exact Hres |].
    exists (EvReadAddr loc :: es ++ es'). rewrite Hlog.
    rewrite <- !app_assoc. split; [reflexivity |].
    cbn [filter is_read_event]. rewrite filter_app.
    rewrite (image_events_no_read es Hev). cbn [app length].
    rewrite Nat2Z.inj_succ. unfold search_space, sizeof_greg in *. lia.
Qed.

End ScanFacts.

Section ScanSearch.
Context {UP : UnwindProvider} {AS : AsyncSupport}.

(** The loop entered at [loc], [n] rejected words away from an accepted
    one, all inside the window. *)
Lemma scan_loop_finds (n : nat) :
  forall fuel loc w bytes,
    let sp := last_stack_pointer (cur w) in
    0 <= sp -> sp <= loc ->
    sp + search_space * sizeof_greg < word_modulus ->
    loc + sizeof_greg * Z.of_nat n + sizeof_greg
      <= sp + search_space * sizeof_greg ->
    (forall j, (j < n)%nat ->
       exists bs,
         plframe_read_addr (loc + sizeof_greg * Z.of_nat j)
                           (Z.to_nat sizeof_greg) = Some bs
         /\ looks_valid (image_list (cur w)) (le_decode bs) = false) ->
    plframe_read_addr (loc + sizeof_greg * Z.of_nat n)
                      (Z.to_nat sizeof_greg) = Some bytes ->
    looks_valid (image_list (cur w)) (le_decode bytes) = true ->
    (n < fuel)%nat ->
    fst (scan_loop fuel loc w) = Some PLFRAME_ESUCCESS
    /\ cur (snd (scan_loop fuel loc w))
       = set_last_valid_frame
           (set_last_stack_pointer (cur w)
              (loc + sizeof_greg * Z.of_nat n + sizeof_greg))
           (le_decode bytes).
Proof.
  induction n as [| n IH]; intros fuel loc w bytes sp Hsp Hloc Hwin Hin Hrej Hread Hacc Hfuel;
    (destruct fuel as [| fuel]; [lia |]); cbn [scan_loop]; mstep; fold sp;
    rewrite (wadd_small sp) by (unfold search_space, sizeof_greg in *; lia);
    (destruct (Z.leb_spec loc (sp + search_space * sizeof_greg)) as [_ | Hout];
     [| unfold search_space, sizeof_greg in *; lia]).
  - replace (loc + sizeof_greg * Z.of_nat 0) with loc in * by lia.
    rewrite Hread.
    destruct (looks_valid_spec (le_decode bytes)
                (mk_world (cur w) (log w ++ [EvReadAddr loc])))
      as (es & Heq & _).
    rewrite Heq. cbn [cur log fst snd]. rewrite Hacc. cbn [cur log fst snd].
    rewrite wadd_small by (unfold search_space, sizeof_greg in *; lia).
    split; reflexivity.
  - destruct (Hrej 0%nat) as (bs & Hbs & Hno); [lia |].
    replace (loc + sizeof_greg * Z.of_nat 0) with loc in Hbs by lia.
    rewrite Hbs.
    destruct (looks_valid_spec (le_decode bs)
                (mk_world (cur w) (log w ++ [EvReadAddr loc])))
      as (es & Heq & _).
    rewrite Heq. cbn [cur log fst snd]. rewrite Hno.
    rewrite (wadd_small loc) by (unfold search_space, sizeof_greg in *; lia).
    replace (loc + sizeof_greg * Z.of_nat (S n) + sizeof_greg)
      with ((loc + sizeof_greg) + sizeof_greg * Z.of_nat n + sizeof_greg)
      by lia.
    apply (IH fuel (loc + sizeof_greg)
              (mk_world (cur w) ((log w ++ [EvReadAddr loc]) ++ es)) bytes);
      cbn [cur log]; fold sp;
      try (unfold search_space, sizeof_greg in *; lia).
    + intros j Hj. destruct (Hrej (S j)) as (bs' & Hbs' & Hno'); [lia |].
      exists bs'. split; [| exact Hno'].
      rewrite <- Hbs'. f_equal. lia.
    + rewrite <- Hread. f_equal. lia.
    + exact Hacc.
Qed.

End ScanSearch.

Section ScannerClaims.
Context {UP : UnwindProvider} {AS : AsyncSupport}.

(** C4, for a window inside the address space.  The scanner finds the
    first accepted word.  When the window of
    [search_space] words above [last_stack_pointer] lies inside the address
    space, the words [0 .. K-1] above [last_stack_pointer] are readable and
    rejected by the validator and word [K < search_space] is readable and
    accepted, [plframe_cursor_scan_stack] (with fuel for [K+1] turns)
    returns [PLFRAME_ESUCCESS], records that word in [last_valid_frame] and
    leaves [last_stack_pointer] exactly one word past the address the word
    was read from. *)
Theorem scan_stack_finds_kth_word (fuel : nat) (w : world) (K data : Z) :
  0 <= last_stack_pointer (cur w) ->
  last_stack_pointer (cur w) + search_space * sizeof_greg < word_modulus ->
  0 <= K < search_space ->
  (forall i, 0 <= i < K ->
     exists v, stack_word (last_stack_pointer (cur w)) i = Some v
               /\ fst (plframe_cursor_address_looks_valid v w) = Some false) ->
  stack_word (last_stack_pointer (cur w)) K = Some data ->
  fst (plframe_cursor_address_looks_valid data w) = Some true ->
  (Z.to_nat K < fuel)%nat ->
  fst (plframe_cursor_scan_stack fuel w) = Some PLFRAME_ESUCCESS
  /\ last_valid_frame (cur (snd (plframe_cursor_scan_stack fuel w))) = data
  /\ last_stack_pointer (cur (snd (plframe_cursor_scan_stack fuel w)))
     = (last_stack_pointer (cur w) + sizeof_greg * K) + sizeof_greg.
Proof.
  intros Hsp Hwin HK Hrej Hword Hacc Hfuel.
  unfold stack_word in Hword.
  destruct (plframe_read_addr (last_stack_pointer (cur w) + sizeof_greg * K)
              (Z.to_nat sizeof_greg)) as [bytes |] eqn:Hread; [| discriminate].
  cbn [option_map] in Hword. injection Hword as Hdata.
  rewrite looks_valid_result in Hacc. injection Hacc as Hacc.
  destruct (scan_loop_finds (Z.to_nat K) fuel (last_stack_pointer (cur w)) w bytes)
    as [Hres Hcur]; try assumption; try lia.
  - rewrite Z2Nat.id by lia. unfold search_space, sizeof_greg in *. lia.
  - intros j Hj.
    destruct (Hrej (Z.of_nat j)) as (v & Hv & Hno); [lia |].
    unfold stack_word in Hv.
    destruct (plframe_read_addr
                (last_stack_pointer (cur w) + sizeof_greg * Z.of_nat j)
                (Z.to_nat sizeof_greg)) as [bs |]; [| discriminate].
    cbn [option_map] in Hv. injection Hv as <-.
    rewrite looks_valid_result in Hno. injection Hno as Hno.
    exists bs. split; [reflexivity | exact Hno].
  - rewrite Z2Nat.id by lia. exact Hread.
  - rewrite Hdata. exact Hacc.
  - unfold plframe_cursor_scan_stack. mstep.
    rewrite Hres, Hcur. rewrite Z2Nat.id by lia.
    split; [reflexivity | split; [exact Hdata | reflexivity]].
Qed.

(** C9.  The frame of the scanner.  On every outcome (also when the fuel
    runs out) [plframe_cursor_scan_stack] leaves [uap], [nframe],
    [image_list], [endstack] (and [fp0], [last_unwind_address], [unwcrsr])
    as they were; it returns nothing but [PLFRAME_ENOFRAME] and
    [PLFRAME_ESUCCESS]; on [PLFRAME_ENOFRAME] the whole cursor is unchanged;
    on [PLFRAME_ESUCCESS] the cursor differs from the old one in
    [last_stack_pointer] and [last_valid_frame] only. *)
Theorem scan_stack_frame (fuel : nat) (w : world) :
  (uap (cur (snd (plframe_cursor_scan_stack fuel w))) = uap (cur w)
   /\ nframe (cur (snd (plframe_cursor_scan_stack fuel w))) = nframe (cur w)
   /\ image_list (cur (snd (plframe_cursor_scan_stack fuel w)))
      = image_list (cur w)
   /\ endstack (cur (snd (plframe_cursor_scan_stack fuel w)))
      = endstack (cur w)
   /\ fp0 (cur (snd (plframe_cursor_scan_stack fuel w))) = fp0 (cur w)
   /\ last_unwind_address (cur (snd (plframe_cursor_scan_stack fuel w)))
      = last_unwind_address (cur w)
   /\ unwcrsr (cur (snd (plframe_cursor_scan_stack fuel w)))
      = unwcrsr (cur w))
  /\ (fst (plframe_cursor_scan_stack fuel w) = None
      \/ fst (plframe_cursor_scan_stack fuel w) = Some PLFRAME_ENOFRAME
      \/ fst (plframe_cursor_scan_stack fuel w) = Some PLFRAME_ESUCCESS)
  /\ (fst (plframe_cursor_scan_stack fuel w) = Some PLFRAME_ENOFRAME ->
      cur (snd (plframe_cursor_scan_stack fuel w)) = cur w)
  /\ (fst (plframe_cursor_scan_stack fuel w) = Some PLFRAME_ESUCCESS ->
      cur (snd (plframe_cursor_scan_stack fuel w))
      = set_last_valid_frame
          (set_last_stack_pointer (cur w)
             (last_stack_pointer
                (cur (snd (plframe_cursor_scan_stack fuel w)))))
          (last_valid_frame (cur (snd (plframe_cursor_scan_stack fuel w))))).
Proof.
  destruct (scan_stack_effect fuel w) as [_ Hcur].
  destruct (fst (plframe_cursor_scan_stack fuel w)) as [[| | | | |] |];
    try contradiction.
  - destruct Hcur as (loc & data & -> & _).
    repeat split; auto; discriminate.
  - rewrite Hcur. repeat split; auto; discriminate.
  - rewrite Hcur. repeat split; auto; discriminate.
Qed.

(** C10.  An address the scanner records has nonzero upper 32 bits.
    Whenever [plframe_cursor_scan_stack] returns [PLFRAME_ESUCCESS], the
    word it left in [last_valid_frame] is a 64-bit word that is at least
    [2^32] and the validator's mask test on it is not zero. *)
Theorem scan_stack_success_upper_bits (fuel : nat) (w : world) :
  fst (plframe_cursor_scan_stack fuel w) = Some PLFRAME_ESUCCESS ->
  2 ^ 32 <= last_valid_frame (cur (snd (plframe_cursor_scan_stack fuel w)))
         < word_modulus
  /\ Z.land (last_valid_frame (cur (snd (plframe_cursor_scan_stack fuel w))))
            upper32_mask <> 0.
Proof.
  intros Hok.
  destruct (scan_stack_effect fuel w) as [_ Hcur].
  rewrite Hok in Hcur. destruct Hcur as (loc & data & -> & Hvalid & Hrange).
  cbn [set_last_valid_frame last_valid_frame].
  unfold looks_valid in Hvalid. apply andb_true_iff in Hvalid.
  destruct Hvalid as [Hmask _].
  destruct (Z.eqb_spec (Z.land data upper32_mask) 0) as [Hz | Hnz];
    [discriminate |].
  split; [| exact Hnz].
  destruct (Z_lt_ge_dec data (2 ^ 32)) as [Hlt | Hge]; [| lia].
  exfalso. apply Hnz. apply upper32_zero_iff; assumption.
Qed.

(** X1.  The scanner stops.  When the window and the word after it lie
    inside the address space, fuel for 502 evaluations of the loop condition
    is enough for [plframe_cursor_scan_stack] to return, and the call reads
    at most 501 words. *)
Theorem scan_stack_terminates_within_window (fuel : nat) (w : world) :
  0 <= last_stack_pointer (cur w) ->
  last_stack_pointer (cur w) + search_space * sizeof_greg + sizeof_greg
    < word_modulus ->
  (502 <= fuel)%nat ->
  fst (plframe_cursor_scan_stack fuel w) <> None
  /\ exists es,
       log (snd (plframe_cursor_scan_stack fuel w)) = log w ++ es
       /\ (length (filter is_read_event es) <= 501)%nat.
Proof.
  intros Hsp Hwin Hfuel.
  unfold plframe_cursor_scan_stack. mstep.
  destruct (scan_loop_bounded fuel (last_stack_pointer (cur w)) w)
    as (Hres & es & Hlog & Hcount);
    try (unfold search_space, sizeof_greg in *; lia).
  split; [exact Hres |].
  exists es. split; [exact Hlog |].
  unfold search_space, sizeof_greg in Hcount. lia.
Qed.

End ScannerClaims.

Section ValidatorClaims.
Context {UP : UnwindProvider} {AS : AsyncSupport}.

Lemma address_in_image_iff (address : Z) (entry : plcrash_async_image_t) :
  address_in_image address entry = true
  <-> header entry <= address <= wadd (header entry) (textsize entry).
Proof.
  unfold address_in_image.
  rewrite andb_true_iff, !Z.leb_le. reflexivity.
Qed.

(** An image whose text range does not run over the end of the address
    space: the upper bound the validator computes is the plain sum. *)
Lemma image_end_no_wrap (entry : plcrash_async_image_t) :
  0 <= header entry -> 0 <= textsize entry ->
  header entry + textsize entry < word_modulus ->
  wadd (header entry) (textsize entry) = header entry + textsize entry.
Proof. intros. apply wadd_small. lia. Qed.

(** C6.  The address validator.  For a 64-bit address below [2^32] (its
    upper 32 bits are zero) [plframe_cursor_address_looks_valid] returns
    false and leaves the world, log included, as it was: it makes no call on
    the image list.  For every other 64-bit address it returns a boolean
    which is true exactly when some entry of the image list has
    [header <= address <= header + textsize] (the sum as the C code computes
    it, on 64 bits). *)
Theorem address_validator_spec (w : world) (address : Z) :
  0 <= address < word_modulus ->
  (address < 2 ^ 32 ->
   plframe_cursor_address_looks_valid address w = (Some false, w))
  /\ (2 ^ 32 <= address ->
      exists b,
        fst (plframe_cursor_address_looks_valid address w) = Some b
        /\ (b = true <->
            exists entry,
              In entry (image_list (cur w))
              /\ header entry <= address
                 <= wadd (header entry) (textsize entry))).
Proof.
  intros Hrange. split.
  - intros Hlow. unfold plframe_cursor_address_looks_valid.
    apply upper32_zero_iff in Hlow; [| exact Hrange].
    rewrite Hlow. reflexivity.
  - intros Hhigh.
    exists (looks_valid (image_list (cur w)) address).
    split; [apply looks_valid_result |].
    unfold looks_valid.
    destruct (Z.eqb_spec (Z.land address upper32_mask) 0) as [Hz | Hnz].
    + apply upper32_zero_iff in Hz; [lia | exact Hrange].
    + cbn [negb andb]. rewrite existsb_exists.
      split; intros (entry & Hin & Htest); exists entry; split;
        try exact Hin; apply address_in_image_iff; exact Htest.
Qed.

End ValidatorClaims.

Section AdvanceFacts.
Context {UP : UnwindProvider} {AS : AsyncSupport}.

Lemma next_with_at_duplicate (scan : M plframe_error_t) (w : world) :
  nframe (cur w) <> -1 ->
  endstack (cur w) = false ->
  fst (unw_step (unwcrsr (cur w))) = 0 ->
  snd (unw_get_reg (snd (unw_step (unwcrsr (cur w)))) UNW_REG_IP)
  = snd (unw_get_reg (unwcrsr (cur w)) UNW_REG_IP) ->
  plframe_cursor_next_with scan w
  = match scan (world_at_scan w) with
    | (None, w2) => (None, w2)
    | (Some result, w2) =>
        if plframe_error_eqb result PLFRAME_ENOFRAME then
          (Some PLFRAME_ESUCCESS,
           mk_world
             (set_last_valid_frame (set_endstack (cur w2) true)
                (snd (unw_get_reg (unwcrsr (cur w2)) UNW_REG_IP)))
             (log w2 ++ [EvUnwGetReg UNW_REG_IP]))
        else if negb (plframe_error_eqb result PLFRAME_ESUCCESS) then
          (Some result, w2)
        else
          let reinit :=
            unw_init_local (with_rip (uap (cur w2)) (last_valid_frame (cur w2)))
          in
          (Some (plframe_error_from_unwerror (fst reinit)),
           mk_world (set_unwcrsr (cur w2) (snd reinit))
                    (log w2 ++ [EvUnwInitLocal]))
    end.
Proof.
  intros Hn He Hstep Hpc.
  unfold plframe_cursor_next_with. mstep.
  apply Z.eqb_neq in Hn. rewrite Hn, He, Hstep.
  change (0 <? 0) with false. change (0 =? 0) with true. fields.
  rewrite Hpc, Z.eqb_refl. fields.
  unfold world_at_scan. rewrite <- !app_assoc. cbn [app].
  destruct (scan _) as [[result |] w2]; [| reflexivity].
  destruct (plframe_error_eqb result PLFRAME_ENOFRAME); [reflexivity |].
  destruct (plframe_error_eqb result PLFRAME_ESUCCESS); reflexivity.
Qed.

Lemma next_with_at_true_end (scan : M plframe_error_t) (w : world) :
  nframe (cur w) <> -1 ->
  endstack (cur w) = false ->
  fst (unw_step (unwcrsr (cur w))) = 0 ->
  snd (unw_get_reg (snd (unw_step (unwcrsr (cur w)))) UNW_REG_IP)
  <> snd (unw_get_reg (unwcrsr (cur w)) UNW_REG_IP) ->
  plframe_cursor_next_with scan w
  = (Some PLFRAME_ESUCCESS,
     mk_world
       (set_last_valid_frame (set_endstack (stepped_cursor (cur w)) true)
          (snd (unw_get_reg (snd (unw_step (unwcrsr (cur w)))) UNW_REG_IP)))
       (log w ++ [EvUnwGetReg UNW_REG_IP; EvUnwStep;
                  EvUnwGetReg UNW_REG_IP; EvUnwGetReg UNW_REG_IP])).
Proof.
  intros Hn He Hstep Hpc.
  unfold plframe_cursor_next_with. mstep.
  apply Z.eqb_neq in Hn. rewrite Hn, He, Hstep.
  change (0 <? 0) with false. change (0 =? 0) with true. fields.
  assert (Hneq : (snd (unw_get_reg (unwcrsr (cur w)) UNW_REG_IP)
                  =? snd (unw_get_reg (snd (unw_step (unwcrsr (cur w))))
                            UNW_REG_IP)) = false).
  { apply Z.eqb_neq. intros Heq. apply Hpc. symmetry. exact Heq. }
  rewrite Hneq. fields.
  unfold stepped_cursor. rewrite <- !app_assoc. reflexivity.
Qed.

Lemma next_first_frame (scan : M plframe_error_t) (w : world) :
  nframe (cur w) = -1 ->
  plframe_cursor_next_with scan w
  = (Some PLFRAME_ESUCCESS, mk_world (set_nframe (cur w) 0) (log w)).
Proof.
  intros Hn. unfold plframe_cursor_next_with. mstep.
  assert (Hb : (nframe (cur w) =? -1) = true) by (apply Z.eqb_eq; exact Hn).
  rewrite Hb. fields. rewrite Hn. reflexivity.
Qed.

Lemma next_at_end (scan : M plframe_error_t) (w : world) :
  nframe (cur w) <> -1 ->
  endstack (cur w) = true ->
  plframe_cursor_next_with scan w = (Some PLFRAME_ENOFRAME, w).
Proof.
  intros Hn He. unfold plframe_cursor_next_with. mstep.
  apply Z.eqb_neq in Hn. rewrite Hn, He. reflexivity.
Qed.

(** A call that walks counts one frame, whatever its outcome. *)
Lemma next_counts_frame (fuel : nat) (w : world) :
  nframe (cur w) <> -1 ->
  endstack (cur w) = false ->
  nframe (cur (snd (plframe_cursor_next fuel w))) = nframe (cur w) + 1.
Proof.
  intros Hn He.
  unfold plframe_cursor_next, plframe_cursor_next_with. mstep.
  pose proof Hn as Hn'. apply Z.eqb_neq in Hn'. rewrite Hn', He. fields.
  destruct (fst (unw_step (unwcrsr (cur w))) <? 0); [reflexivity |].
  destruct (fst (unw_step (unwcrsr (cur w))) =? 0); fields; [| reflexivity].
  match goal with |- context [if ?b then _ else _] => destruct b end;
    fields; [| reflexivity].
  match goal with |- context [plframe_cursor_scan_stack fuel ?w1] =>
    pose proof (scan_stack_keeps_nframe fuel w1) as Hnf;
    destruct (plframe_cursor_scan_stack fuel w1) as [[result |] w2]
  end; fields; cbn [fst snd cur nframe set_nframe] in Hnf; [| exact Hnf].
  destruct (plframe_error_eqb result PLFRAME_ENOFRAME); fields; [exact Hnf |].
  destruct (plframe_error_eqb result PLFRAME_ESUCCESS); fields; exact Hnf.
Qed.

End AdvanceFacts.

Section AdvanceClaims.
Context {UP : UnwindProvider} {AS : AsyncSupport}.

Lemma plframe_error_eqb_eq (a b : plframe_error_t) :
  plframe_error_eqb a b = true <-> a = b.
Proof.
  destruct a, b; cbn; split; intros H; try discriminate; try reflexivity.
  - apply Z.eqb_eq in H. subst. reflexivity.
  - injection H as ->. apply Z.eqb_refl.
Qed.

(** C1.  The duplicate-frame heuristic.  Take a cursor at a frame
    ([0 <= nframe], end-of-stack flag clear) whose provider answers the step
    with [0] (done).  If the program counter read after the step equals the
    one read before it (the recorded [last_unwind_address]), the scanner is
    run in [world_at_scan], that is right after the second read with the
    flag still clear, and the outcome of the call is decided from what the
    scanner returns and in the world it leaves: [PLFRAME_ENOFRAME] sets the
    flag and ends the call with the final read and [PLFRAME_ESUCCESS], an
    error is returned as it is, [PLFRAME_ESUCCESS] re-seeds the provider and
    returns the translation of its result; nothing is returned while the
    scanner has not.  If the two program counters differ, the call sets
    [endstack], returns [PLFRAME_ESUCCESS] and its calls are the two reads,
    the step and the final read: the scanner is not entered. *)
Theorem next_duplicate_frame_heuristic (fuel : nat) (w : world) :
  0 <= nframe (cur w) ->
  endstack (cur w) = false ->
  fst (unw_step (unwcrsr (cur w))) = 0 ->
  (snd (unw_get_reg (snd (unw_step (unwcrsr (cur w)))) UNW_REG_IP)
   = snd (unw_get_reg (unwcrsr (cur w)) UNW_REG_IP) ->
   endstack (cur (world_at_scan w)) = false
   /\ plframe_cursor_next fuel w
      = match plframe_cursor_scan_stack fuel (world_at_scan w) with
        | (None, w2) => (None, w2)
        | (Some result, w2) =>
            if plframe_error_eqb result PLFRAME_ENOFRAME then
              (Some PLFRAME_ESUCCESS,
               mk_world
                 (set_last_valid_frame (set_endstack (cur w2) true)
                    (snd (unw_get_reg (unwcrsr (cur w2)) UNW_REG_IP)))
                 (log w2 ++ [EvUnwGetReg UNW_REG_IP]))
            else if negb (plframe_error_eqb result PLFRAME_ESUCCESS) then
              (Some result, w2)
            else
              (Some (plframe_error_from_unwerror
                       (fst (unw_init_local
                               (with_rip (uap (cur w2))
                                  (last_valid_frame (cur w2)))))),
               mk_world
                 (set_unwcrsr (cur w2)
                    (snd (unw_init_local
                            (with_rip (uap (cur w2))
                               (last_valid_frame (cur w2))))))
                 (log w2 ++ [EvUnwInitLocal]))
        end
   /\ exists es tail,
        log (snd (plframe_cursor_scan_stack fuel (world_at_scan w)))
        = log w ++ [EvUnwGetReg UNW_REG_IP; EvUnwStep;
                    EvUnwGetReg UNW_REG_IP; EvScanStack] ++ es
        /\ log (snd (plframe_cursor_next fuel w))
           = log (snd (plframe_cursor_scan_stack fuel (world_at_scan w)))
             ++ tail)
  /\ (snd (unw_get_reg (snd (unw_step (unwcrsr (cur w)))) UNW_REG_IP)
      <> snd (unw_get_reg (unwcrsr (cur w)) UNW_REG_IP) ->
      plframe_cursor_next fuel w
      = (Some PLFRAME_ESUCCESS,
         mk_world
           (set_last_valid_frame (set_endstack (stepped_cursor (cur w)) true)
              (snd (unw_get_reg (snd (unw_step (unwcrsr (cur w))))
                      UNW_REG_IP)))
           (log w ++ [EvUnwGetReg UNW_REG_IP; EvUnwStep;
                      EvUnwGetReg UNW_REG_IP; EvUnwGetReg UNW_REG_IP]))
      /\ fst (plframe_cursor_next fuel w) = Some PLFRAME_ESUCCESS
      /\ endstack (cur (snd (plframe_cursor_next fuel w))) = true
      /\ log (snd (plframe_cursor_next fuel w))
         = log w ++ [EvUnwGetReg UNW_REG_IP; EvUnwStep;
                     EvUnwGetReg UNW_REG_IP; EvUnwGetReg UNW_REG_IP]).
Proof.
  intros Hn He Hstep. split; intros Hpc.
  - split; [exact He |].
    split; [unfold plframe_cursor_next;
            apply next_with_at_duplicate; try assumption; lia |].
    unfold plframe_cursor_next.
    rewrite next_with_at_duplicate by (try assumption; lia).
    destruct (scan_stack_effect fuel (world_at_scan w)) as [(es & Hlog & _) _].
    exists es.
    destruct (plframe_cursor_scan_stack fuel (world_at_scan w))
      as [[result |] w2]; cbn [fst snd] in *.
    + destruct (plframe_error_eqb result PLFRAME_ENOFRAME).
      { exists [EvUnwGetReg UNW_REG_IP].
        split; [rewrite Hlog; unfold world_at_scan; cbn [log];
                rewrite <- app_assoc; reflexivity | reflexivity]. }
      destruct (plframe_error_eqb result PLFRAME_ESUCCESS); cbn [negb].
      { exists [EvUnwInitLocal].
        split; [rewrite Hlog; unfold world_at_scan; cbn [log];
                rewrite <- app_assoc; reflexivity | reflexivity]. }
      exists [].
      split; [rewrite Hlog; unfold world_at_scan; cbn [log];
              rewrite <- app_assoc; reflexivity |].
      rewrite app_nil_r. reflexivity.
    + exists [].
      split; [rewrite Hlog; unfold world_at_scan; cbn [log];
              rewrite <- app_assoc; reflexivity |].
      rewrite app_nil_r. reflexivity.
  - unfold plframe_cursor_next.
    rewrite next_with_at_true_end by (try assumption; lia).
    split; [reflexivity | split; [reflexivity | split; reflexivity]].
Qed.

(** C2, as the code has it.  Same cursor, provider done on a repeated
    program counter, and the scanner, entered in [world_at_scan], returns
    [e] in world [w2].  If [e] is [PLFRAME_ENOFRAME], the call sets
    [endstack], records the provider's program counter in
    [last_valid_frame] and returns [PLFRAME_ESUCCESS]; it is the next call
    that returns [PLFRAME_ENOFRAME].  If [e] is an error (neither
    [PLFRAME_ENOFRAME] nor [PLFRAME_ESUCCESS]), the call returns [e] and
    leaves the world as the scanner left it. *)
Theorem next_duplicate_frame_scan_outcomes
  (scan : M plframe_error_t) (w w2 : world) (e : plframe_error_t) :
  0 <= nframe (cur w) ->
  endstack (cur w) = false ->
  fst (unw_step (unwcrsr (cur w))) = 0 ->
  snd (unw_get_reg (snd (unw_step (unwcrsr (cur w)))) UNW_REG_IP)
  = snd (unw_get_reg (unwcrsr (cur w)) UNW_REG_IP) ->
  scan (world_at_scan w) = (Some e, w2) ->
  (e = PLFRAME_ENOFRAME ->
   fst (plframe_cursor_next_with scan w) = Some PLFRAME_ESUCCESS
   /\ cur (snd (plframe_cursor_next_with scan w))
      = set_last_valid_frame (set_endstack (cur w2) true)
          (snd (unw_get_reg (unwcrsr (cur w2)) UNW_REG_IP))
   /\ (nframe (cur w2) <> -1 ->
       forall scan',
         plframe_cursor_next_with scan' (snd (plframe_cursor_next_with scan w))
         = (Some PLFRAME_ENOFRAME, snd (plframe_cursor_next_with scan w))))
  /\ (e <> PLFRAME_ENOFRAME -> e <> PLFRAME_ESUCCESS ->
      plframe_cursor_next_with scan w = (Some e, w2)).
Proof.
  intros Hn He Hstep Hpc Hscan.
  rewrite next_with_at_duplicate by (try assumption; lia).
  rewrite Hscan. split.
  - intros ->. cbn [plframe_error_eqb fst snd cur].
    split; [reflexivity | split; [reflexivity |]].
    intros Hn2 scan'. apply next_at_end; [exact Hn2 | reflexivity].
  - intros Hne1 Hne2.
    destruct (plframe_error_eqb e PLFRAME_ENOFRAME) eqn:E1.
    { apply plframe_error_eqb_eq in E1. contradiction. }
    destruct (plframe_error_eqb e PLFRAME_ESUCCESS) eqn:E2.
    { apply plframe_error_eqb_eq in E2. contradiction. }
    reflexivity.
Qed.

(** Every cursor a session can hold has [nframe >= -1], and [nframe >= 0]
    once the end-of-stack flag is set. *)
Lemma reachable_nframe (w : world) :
  reachable w ->
  -1 <= nframe (cur w) /\ (endstack (cur w) = true -> 0 <= nframe (cur w)).
Proof.
  induction 1 as [w0 ss images
                 | w fuel e w' Hreach [IHlo IHend] Hnext
                 | w fuel e w' Hreach [IHlo IHend] Hscan].
  - unfold plframe_cursor_init. mstep.
    cbn [nframe endstack]. split; [lia | discriminate].
  - destruct (Z.eq_dec (nframe (cur w)) (-1)) as [Hfirst | Hwalk].
    + unfold plframe_cursor_next in Hnext.
      rewrite next_first_frame in Hnext by exact Hfirst.
      injection Hnext as _ <-. cbn [cur set_nframe nframe endstack].
      split; [lia | intros _; lia].
    + destruct (endstack (cur w)) eqn:Hend.
      * unfold plframe_cursor_next in Hnext.
        rewrite next_at_end in Hnext by assumption.
        injection Hnext as _ <-. rewrite Hend. split; [lia | auto].
      * pose proof (next_counts_frame fuel w Hwalk Hend) as Hcount.
        rewrite Hnext in Hcount. cbn [snd] in Hcount.
        rewrite Hcount. split; [lia | intros _; lia].
  - pose proof (scan_stack_keeps_nframe fuel w) as Hnf.
    pose proof (scan_stack_keeps_endstack fuel w) as Hes.
    rewrite Hscan in Hnf, Hes. cbn [snd] in Hnf, Hes.
    rewrite Hnf, Hes. split; assumption.
Qed.

(** C3.  End of stack is final.  For every cursor a session can hold whose
    end-of-stack flag is set, [plframe_cursor_next] returns
    [PLFRAME_ENOFRAME] and the world it leaves is the one it found: no
    field of the cursor changes and no call is made. *)
Theorem next_at_end_of_stack (fuel : nat) (w : world) :
  reachable w ->
  endstack (cur w) = true ->
  plframe_cursor_next fuel w = (Some PLFRAME_ENOFRAME, w).
Proof.
  intros Hreach Hend.
  destruct (reachable_nframe w Hreach) as [_ Hpos].
  specialize (Hpos Hend).
  unfold plframe_cursor_next. apply next_at_end; [lia | exact Hend].
Qed.

(** C7.  Registers of the later frames.  For every cursor whose frame index
    is not [0], [plframe_get_reg] gives [PLFRAME_ESUCCESS] and the cursor's
    [last_valid_frame] for the program counter, and [PLFRAME_ENOTSUP], with
    nothing stored, for every other register identifier; the world is left
    as it was. *)
Theorem get_reg_later_frames (w : world) :
  nframe (cur w) <> 0 ->
  plframe_get_reg PLFRAME_X86_64_RIP w
  = (Some (PLFRAME_ESUCCESS, Some (last_valid_frame (cur w))), w)
  /\ (forall regnum,
        regnum <> PLFRAME_X86_64_RIP ->
        plframe_get_reg regnum w = (Some (PLFRAME_ENOTSUP, None), w)).
Proof.
  intros Hn. apply Z.eqb_neq in Hn.
  split; [| intros regnum Hreg];
    unfold plframe_get_reg; mstep; rewrite Hn; cbn [negb].
  - reflexivity.
  - destruct regnum; try reflexivity. contradiction.
Qed.

(** C8, as the code has it.  On frame [0], [plframe_get_reg] answers
    [rflags], [cs], [fs] and [gs] with [PLFRAME_ESUCCESS] and the field of
    the thread-state snapshot, and leaves the world as it was: the provider
    is not called.  On every other frame these four identifiers get
    [PLFRAME_ENOTSUP]. *)
Theorem get_reg_snapshot_registers (w : world) :
  (nframe (cur w) = 0 ->
   plframe_get_reg PLFRAME_X86_64_RFLAGS w
   = (Some (PLFRAME_ESUCCESS, Some (__rflags (uap (cur w)))), w)
   /\ plframe_get_reg PLFRAME_X86_64_CS w
      = (Some (PLFRAME_ESUCCESS, Some (__cs (uap (cur w)))), w)
   /\ plframe_get_reg PLFRAME_X86_64_FS w
      = (Some (PLFRAME_ESUCCESS, Some (__fs (uap (cur w)))), w)
   /\ plframe_get_reg PLFRAME_X86_64_GS w
      = (Some (PLFRAME_ESUCCESS, Some (__gs (uap (cur w)))), w))
  /\ (nframe (cur w) <> 0 ->
      forall regnum,
        In regnum [PLFRAME_X86_64_RFLAGS; PLFRAME_X86_64_CS;
                   PLFRAME_X86_64_FS; PLFRAME_X86_64_GS] ->
        plframe_get_reg regnum w = (Some (PLFRAME_ENOTSUP, None), w)).
Proof.
  split.
  - intros Hn. unfold plframe_get_reg. mstep. rewrite Hn.
    cbn. repeat split; reflexivity.
  - intros Hn regnum Hin. apply Z.eqb_neq in Hn.
    unfold plframe_get_reg. mstep. rewrite Hn. cbn [negb].
    cbn [In] in Hin.
    destruct Hin as [<- | [<- | [<- | [<- | []]]]]; reflexivity.
Qed.

(** X2.  The first call.  On a cursor that has not advanced yet
    ([nframe = -1]) [plframe_cursor_next] returns [PLFRAME_ESUCCESS], sets
    the frame index to [0] and does nothing else: the provider is not
    called. *)
Theorem next_first_call (fuel : nat) (w : world) :
  nframe (cur w) = -1 ->
  plframe_cursor_next fuel w
  = (Some PLFRAME_ESUCCESS, mk_world (set_nframe (cur w) 0) (log w)).
Proof.
  intros Hn. unfold plframe_cursor_next. apply next_first_frame. exact Hn.
Qed.

(** X3.  A step with more frames.  At a frame, when the provider's step
    returns a positive value, the call records the address read before the
    step in [last_unwind_address], counts the frame, records the new program
    counter in [last_valid_frame] and returns [PLFRAME_ESUCCESS]; the
    end-of-stack flag stays clear. *)
Theorem next_more_frames (fuel : nat) (w : world) :
  nframe (cur w) <> -1 ->
  endstack (cur w) = false ->
  0 < fst (unw_step (unwcrsr (cur w))) ->
  plframe_cursor_next fuel w
  = (Some PLFRAME_ESUCCESS,
     mk_world
       (set_last_valid_frame (stepped_cursor (cur w))
          (snd (unw_get_reg (snd (unw_step (unwcrsr (cur w)))) UNW_REG_IP)))
       (log w ++ [EvUnwGetReg UNW_REG_IP; EvUnwStep;
                  EvUnwGetReg UNW_REG_IP; EvUnwGetReg UNW_REG_IP])).
Proof.
  intros Hn He Hstep.
  unfold plframe_cursor_next, plframe_cursor_next_with. mstep.
  apply Z.eqb_neq in Hn. rewrite Hn, He. fields.
  destruct (Z.ltb_spec (fst (unw_step (unwcrsr (cur w)))) 0); [lia |].
  destruct (Z.eqb_spec (fst (unw_step (unwcrsr (cur w)))) 0); [lia |].
  fields. unfold stepped_cursor. rewrite <- !app_assoc. reflexivity.
Qed.

(** X4.  A failed step.  At a frame, when the provider's step returns a
    negative value, the call returns its translation by
    [plframe_error_from_unwerror]; the frame is counted all the same and the
    end-of-stack flag stays clear. *)
Theorem next_provider_error (fuel : nat) (w : world) :
  nframe (cur w) <> -1 ->
  endstack (cur w) = false ->
  fst (unw_step (unwcrsr (cur w))) < 0 ->
  plframe_cursor_next fuel w
  = (Some (plframe_error_from_unwerror (fst (unw_step (unwcrsr (cur w))))),
     mk_world (stepped_cursor (cur w))
              (log w ++ [EvUnwGetReg UNW_REG_IP; EvUnwStep])).
Proof.
  intros Hn He Hstep.
  unfold plframe_cursor_next, plframe_cursor_next_with. mstep.
  apply Z.eqb_neq in Hn. rewrite Hn, He. fields.
  destruct (Z.ltb_spec (fst (unw_step (unwcrsr (cur w)))) 0); [| lia].
  unfold stepped_cursor. rewrite <- !app_assoc. reflexivity.
Qed.

(** X5.  Re-seeding after a successful scan.  At a frame whose provider is
    done on a repeated program counter, when the scanner returns
    [PLFRAME_ESUCCESS], the call re-initialises the provider from the
    snapshot's general-purpose state with only [__rip] replaced by the
    address the scanner recorded, and returns the translation of what
    [unw_init_local] returned; the frame has been counted once. *)
Theorem next_reseeds_after_scan (fuel : nat) (w : world) :
  0 <= nframe (cur w) ->
  endstack (cur w) = false ->
  fst (unw_step (unwcrsr (cur w))) = 0 ->
  snd (unw_get_reg (snd (unw_step (unwcrsr (cur w)))) UNW_REG_IP)
  = snd (unw_get_reg (unwcrsr (cur w)) UNW_REG_IP) ->
  fst (plframe_cursor_scan_stack fuel (world_at_scan w))
  = Some PLFRAME_ESUCCESS ->
  plframe_cursor_next fuel w
  = (Some (plframe_error_from_unwerror
             (fst (unw_init_local
                     (with_rip (uap (cur w))
                        (last_valid_frame
                           (cur (snd (plframe_cursor_scan_stack fuel
                                        (world_at_scan w))))))))),
     mk_world
       (set_unwcrsr
          (cur (snd (plframe_cursor_scan_stack fuel (world_at_scan w))))
          (snd (unw_init_local
                  (with_rip (uap (cur w))
                     (last_valid_frame
                        (cur (snd (plframe_cursor_scan_stack fuel
                                     (world_at_scan w)))))))))
       (log (snd (plframe_cursor_scan_stack fuel (world_at_scan w)))
        ++ [EvUnwInitLocal]))
  /\ nframe (cur (snd (plframe_cursor_next fuel w))) = nframe (cur w) + 1.
Proof.
  intros Hn He Hstep Hpc Hscan.
  split; [| apply next_counts_frame; [lia | exact He]].
  unfold plframe_cursor_next.
  rewrite next_with_at_duplicate by (try assumption; lia).
  pose proof (scan_stack_keeps_uap fuel (world_at_scan w)) as Huap.
  destruct (plframe_cursor_scan_stack fuel (world_at_scan w))
    as [result w2].
  cbn [fst snd] in *. rewrite Hscan. cbn [plframe_error_eqb negb].
  rewrite Huap. reflexivity.
Qed.

End AdvanceClaims.

(** ** The functions on concrete inputs *)

(** C5, the code at its limit.  Over a stack of 500 null words (each read
    and rejected) followed by an address inside the image, the scanner reads
    501 words, the last one [search_space] words above [last_stack_pointer],
    and returns [PLFRAME_ESUCCESS] with that 501st word. *)
Theorem scan_stack_reads_501_words :
  forallb (fun i =>
             match @stack_word off_by_one_support
                     (__rsp test_state) (Z.of_nat i) with
             | Some v =>
                 (v =? 0)
                 && negb (@looks_valid test_images v)
             | None => false
             end) (seq 0 500) = true
  /\ fst (@plframe_cursor_scan_stack (scripted_provider []) off_by_one_support
            502 (test_world [] 1 test_pc))
     = Some PLFRAME_ESUCCESS
  /\ last_valid_frame
       (cur (snd (@plframe_cursor_scan_stack (scripted_provider [])
                    off_by_one_support 502 (test_world [] 1 test_pc))))
     = 0x100000f00
  /\ last_stack_pointer
       (cur (snd (@plframe_cursor_scan_stack (scripted_provider [])
                    off_by_one_support 502 (test_world [] 1 test_pc))))
     = __rsp test_state + sizeof_greg * search_space + sizeof_greg
  /\ length
       (filter is_read_event
          (log (snd (@plframe_cursor_scan_stack (scripted_provider [])
                       off_by_one_support 502 (test_world [] 1 test_pc)))))
     = 501%nat.
Proof.
  split; [vm_compute; reflexivity |].
  split; [vm_compute; reflexivity |].
  split; [vm_compute; reflexivity |].
  split; vm_compute; reflexivity.
Qed.

(** C4, refuted as stated: the cursor's watermark is the last word of the
    address space, that word (word 0 of the stack, nothing before it) is
    readable and the validator accepts it, yet the bound of the loop has
    wrapped below the watermark: the scanner returns [PLFRAME_ENOFRAME]
    without reading and records nothing. *)
Lemma scan_stack_misses_word_at_top :
  last_stack_pointer (cur (stack_world 0xfffffffffffffff8))
  = 0xfffffffffffffff8
  /\ @stack_word top_support
       (last_stack_pointer (cur (stack_world 0xfffffffffffffff8))) 0
     = Some 0x100000f00
  /\ fst (@plframe_cursor_address_looks_valid (scripted_provider [])
            0x100000f00 (stack_world 0xfffffffffffffff8))
     = Some true
  /\ @plframe_cursor_scan_stack (scripted_provider []) top_support 10
       (stack_world 0xfffffffffffffff8)
     = (Some PLFRAME_ENOFRAME, stack_world 0xfffffffffffffff8)
  /\ fst (@plframe_cursor_scan_stack (scripted_provider []) top_support 10
            (stack_world 0xfffffffffffffff8))
     <> Some PLFRAME_ESUCCESS
  /\ last_valid_frame
       (cur (snd (@plframe_cursor_scan_stack (scripted_provider [])
                    top_support 10 (stack_world 0xfffffffffffffff8))))
     <> 0x100000f00.
Proof.
  split; [vm_compute; reflexivity |].
  split; [vm_compute; reflexivity |].
  split; [vm_compute; reflexivity |].
  split; [vm_compute; reflexivity |].
  split; vm_compute; discriminate.
Qed.

(** C2, refuted as stated: the provider is done on a repeated program
    counter, the scanner finds nothing (no byte is mapped) and returns
    [PLFRAME_ENOFRAME], and the call returns [PLFRAME_ESUCCESS] with the flag
    set, not [PLFRAME_ENOFRAME]. *)
Lemma next_duplicate_no_frame_returns_success :
  fst (@unw_step (scripted_provider []) (unwcrsr (cur (test_world [] 1 test_pc))))
  = 0
  /\ snd (@unw_get_reg (scripted_provider [])
            (snd (@unw_step (scripted_provider [])
                    (unwcrsr (cur (test_world [] 1 test_pc)))))
            UNW_REG_IP)
     = snd (@unw_get_reg (scripted_provider [])
              (unwcrsr (cur (test_world [] 1 test_pc))) UNW_REG_IP)
  /\ fst (@plframe_cursor_scan_stack (scripted_provider []) unmapped 10
            (@world_at_scan (scripted_provider []) (test_world [] 1 test_pc)))
     = Some PLFRAME_ENOFRAME
  /\ fst (@plframe_cursor_next (scripted_provider []) unmapped 10
            (test_world [] 1 test_pc))
     = Some PLFRAME_ESUCCESS
  /\ fst (@plframe_cursor_next (scripted_provider []) unmapped 10
            (test_world [] 1 test_pc))
     <> Some PLFRAME_ENOFRAME
  /\ endstack (cur (snd (@plframe_cursor_next (scripted_provider []) unmapped
                           10 (test_world [] 1 test_pc))))
     = true.
Proof.
  split; [vm_compute; reflexivity |].
  split; [vm_compute; reflexivity |].
  split; [vm_compute; reflexivity |].
  split; [vm_compute; reflexivity |].
  split; [vm_compute; discriminate | vm_compute; reflexivity].
Qed.

(** C8, refuted as stated: on frame 1 the flags register is not read from
    the snapshot, the call returns [PLFRAME_ENOTSUP] and stores nothing. *)
Lemma get_reg_rflags_frame_1_unsupported :
  nframe (cur (test_world [] 1 test_pc)) = 1
  /\ @plframe_get_reg (scripted_provider []) unmapped PLFRAME_X86_64_RFLAGS
       (test_world [] 1 test_pc)
     = (Some (PLFRAME_ENOTSUP, None), test_world [] 1 test_pc)
  /\ fst (@plframe_get_reg (scripted_provider []) unmapped
            PLFRAME_X86_64_RFLAGS (test_world [] 1 test_pc))
     <> Some (PLFRAME_ESUCCESS, Some (__rflags test_state)).
Proof.
  split; [vm_compute; reflexivity |].
  split; [vm_compute; reflexivity |].
  vm_compute. discriminate.
Qed.

(** *** The theorems at these inputs *)

Lemma next_duplicate_frame_heuristic_witness :
  (fst (@plframe_cursor_scan_stack (scripted_provider []) small_support 10
          (@world_at_scan (scripted_provider []) (test_world [] 1 test_pc)))
   = Some PLFRAME_ESUCCESS
   /\ @plframe_cursor_next (scripted_provider []) small_support 10
        (test_world [] 1 test_pc)
      = (Some PLFRAME_ESUCCESS,
         @mk_world (scripted_provider [])
           (@mk_cursor (scripted_provider []) test_state 2 0 test_images
              false test_pc (__rsp test_state + 24) 0x100000f00
              (0x100000f00, []))
           (log (snd (@plframe_cursor_scan_stack (scripted_provider [])
                        small_support 10
                        (@world_at_scan (scripted_provider [])
                           (test_world [] 1 test_pc))))
            ++ [EvUnwInitLocal])))
  /\ (fst (@plframe_cursor_scan_stack (scripted_provider []) unmapped 10
             (@world_at_scan (scripted_provider []) (test_world [] 1 test_pc)))
      = Some PLFRAME_ENOFRAME
      /\ fst (@plframe_cursor_next (scripted_provider []) unmapped 10
                (test_world [] 1 test_pc))
         = Some PLFRAME_ESUCCESS
      /\ endstack
           (cur (snd (@plframe_cursor_next (scripted_provider []) unmapped 10
                        (test_world [] 1 test_pc))))
         = true)
  /\ (fst (@plframe_cursor_next (scripted_provider [(0, 0x100000b00)])
             unmapped 10 (test_world [(0, 0x100000b00)] 1 test_pc))
      = Some PLFRAME_ESUCCESS
      /\ endstack
           (cur (snd (@plframe_cursor_next
                        (scripted_provider [(0, 0x100000b00)]) unmapped 10
                        (test_world [(0, 0x100000b00)] 1 test_pc))))
         = true
      /\ log (snd (@plframe_cursor_next
                     (scripted_provider [(0, 0x100000b00)]) unmapped 10
                     (test_world [(0, 0x100000b00)] 1 test_pc)))
         = log (test_world [(0, 0x100000b00)] 1 test_pc)
           ++ [EvUnwGetReg UNW_REG_IP; EvUnwStep;
               EvUnwGetReg UNW_REG_IP; EvUnwGetReg UNW_REG_IP]).
Proof.
  split; [| split].
  - destruct (proj1 (@next_duplicate_frame_heuristic (scripted_provider [])
                       small_support 10 (test_world [] 1 test_pc)
                       ltac:(cbn; lia) eq_refl eq_refl) eq_refl)
      as (_ & Hnext & _).
    split; [vm_compute; reflexivity |].
    rewrite Hnext. vm_compute. reflexivity.
  - destruct (proj1 (@next_duplicate_frame_heuristic (scripted_provider [])
                       unmapped 10 (test_world [] 1 test_pc)
                       ltac:(cbn; lia) eq_refl eq_refl) eq_refl)
      as (_ & Hnext & _).
    split; [vm_compute; reflexivity |].
    rewrite Hnext.
    split; vm_compute; reflexivity.
  - apply (proj2 (@next_duplicate_frame_heuristic
                    (scripted_provider [(0, 0x100000b00)])
                    unmapped 10 (test_world [(0, 0x100000b00)] 1 test_pc)
                    ltac:(cbn; lia) eq_refl eq_refl)).
    vm_compute. discriminate.
Defined.

Lemma next_duplicate_frame_scan_outcomes_witness :
  (fst (@plframe_cursor_next (scripted_provider []) unmapped 10
          (test_world [] 1 test_pc))
   = Some PLFRAME_ESUCCESS
   /\ endstack
        (cur (snd (@plframe_cursor_next (scripted_provider []) unmapped 10
                     (test_world [] 1 test_pc))))
      = true
   /\ @plframe_cursor_next (scripted_provider []) unmapped 10
        (snd (@plframe_cursor_next (scripted_provider []) unmapped 10
                (test_world [] 1 test_pc)))
      = (Some PLFRAME_ENOFRAME,
         snd (@plframe_cursor_next (scripted_provider []) unmapped 10
                (test_world [] 1 test_pc))))
  /\ @plframe_cursor_next_with (scripted_provider []) unmapped
       failing_scanner (test_world [] 1 test_pc)
     = (Some PLFRAME_EBADFRAME,
        @world_at_scan (scripted_provider []) (test_world [] 1 test_pc)).
Proof.
  split.
  - pose proof (proj1 (@next_duplicate_frame_scan_outcomes
                         (scripted_provider []) unmapped
                         (@plframe_cursor_scan_stack (scripted_provider [])
                            unmapped 10)
                         (test_world [] 1 test_pc)
                         (snd (@plframe_cursor_scan_stack
                                 (scripted_provider []) unmapped 10
                                 (@world_at_scan (scripted_provider [])
                                    (test_world [] 1 test_pc))))
                         PLFRAME_ENOFRAME
                         ltac:(cbn; lia) eq_refl eq_refl eq_refl eq_refl)
                  eq_refl) as (Hres & Hcur & Hnext).
    split; [exact Hres |].
    split; [vm_compute; reflexivity |].
    apply Hnext. vm_compute. discriminate.
  - apply (proj2 (@next_duplicate_frame_scan_outcomes
                    (scripted_provider []) unmapped failing_scanner
                    (test_world [] 1 test_pc)
                    (@world_at_scan (scripted_provider [])
                       (test_world [] 1 test_pc))
                    PLFRAME_EBADFRAME
                    ltac:(cbn; lia) eq_refl eq_refl eq_refl eq_refl));
      discriminate.
Defined.

Lemma next_at_end_of_stack_witness :
  endstack (cur end_world) = true
  /\ @plframe_cursor_next (scripted_provider [(0, 0x100000b00)]) unmapped 10
       end_world
     = (Some PLFRAME_ENOFRAME, end_world).
Proof.
  split; [vm_compute; reflexivity |].
  apply next_at_end_of_stack; [| vm_compute; reflexivity].
  apply (@reachable_next (scripted_provider [(0, 0x100000b00)]) unmapped
           (snd (@plframe_cursor_next (scripted_provider [(0, 0x100000b00)])
                   unmapped 10
                   (snd (@plframe_cursor_init
                           (scripted_provider [(0, 0x100000b00)]) unmapped
                           test_state test_images
                           (test_world [(0, 0x100000b00)] 7 0)))))
           10%nat PLFRAME_ESUCCESS).
  - apply (@reachable_next (scripted_provider [(0, 0x100000b00)]) unmapped
             (snd (@plframe_cursor_init
                     (scripted_provider [(0, 0x100000b00)]) unmapped
                     test_state test_images
                     (test_world [(0, 0x100000b00)] 7 0)))
             10%nat PLFRAME_ESUCCESS).
    + apply reachable_init.
    + vm_compute. reflexivity.
  - vm_compute. reflexivity.
Defined.

Lemma scan_stack_finds_kth_word_witness :
  fst (@plframe_cursor_scan_stack (scripted_provider []) small_support 10
         (test_world [] 1 test_pc))
  = Some PLFRAME_ESUCCESS
  /\ last_valid_frame
       (cur (snd (@plframe_cursor_scan_stack (scripted_provider [])
                    small_support 10 (test_world [] 1 test_pc))))
     = 0x100000f00
  /\ last_stack_pointer
       (cur (snd (@plframe_cursor_scan_stack (scripted_provider [])
                    small_support 10 (test_world [] 1 test_pc))))
     = (last_stack_pointer (cur (test_world [] 1 test_pc)) + sizeof_greg * 2)
       + sizeof_greg.
Proof.
  apply (@scan_stack_finds_kth_word (scripted_provider []) small_support
           10 (test_world [] 1 test_pc) 2 0x100000f00).
  - vm_compute. discriminate.
  - vm_compute. reflexivity.
  - vm_compute. split; [discriminate | reflexivity].
  - intros i Hi.
    assert (Hcases : i = 0 \/ i = 1) by lia.
    destruct Hcases as [-> | ->].
    + exists 0. split; vm_compute; reflexivity.
    + exists 0x7fff5fbff200. split; vm_compute; reflexivity.
  - vm_compute. reflexivity.
  - vm_compute. reflexivity.
  - vm_compute. lia.
Defined.

Lemma address_validator_spec_witness :
  @plframe_cursor_address_looks_valid (scripted_provider []) 0x7fff5f00
    (test_world [] 1 test_pc)
  = (Some false, test_world [] 1 test_pc)
  /\ (exists b,
        fst (@plframe_cursor_address_looks_valid (scripted_provider [])
               0x100000f00 (test_world [] 1 test_pc)) = Some b
        /\ (b = true <->
            exists entry,
              In entry (image_list (cur (test_world [] 1 test_pc)))
              /\ header entry <= 0x100000f00
                 <= wadd (header entry) (textsize entry))).
Proof.
  split.
  - apply (proj1 (@address_validator_spec (scripted_provider [])
                    (test_world [] 1 test_pc) 0x7fff5f00
                    ltac:(vm_compute; split; [discriminate | reflexivity]))).
    vm_compute. reflexivity.
  - apply (proj2 (@address_validator_spec (scripted_provider [])
                    (test_world [] 1 test_pc) 0x100000f00
                    ltac:(vm_compute; split; [discriminate | reflexivity]))).
    vm_compute. discriminate.
Defined.

Lemma get_reg_later_frames_witness :
  @plframe_get_reg (scripted_provider []) unmapped PLFRAME_X86_64_RIP
    (test_world [] 1 test_pc)
  = (Some (PLFRAME_ESUCCESS,
           Some (last_valid_frame (cur (test_world [] 1 test_pc)))),
     test_world [] 1 test_pc)
  /\ (forall regnum,
        regnum <> PLFRAME_X86_64_RIP ->
        @plframe_get_reg (scripted_provider []) unmapped regnum
          (test_world [] 1 test_pc)
        = (Some (PLFRAME_ENOTSUP, None), test_world [] 1 test_pc)).
Proof.
  apply (@get_reg_later_frames (scripted_provider []) unmapped
           (test_world [] 1 test_pc)).
  vm_compute. discriminate.
Defined.

Lemma get_reg_snapshot_registers_witness :
  (@plframe_get_reg (scripted_provider []) unmapped PLFRAME_X86_64_RFLAGS
     (test_world [] 0 test_pc)
   = (Some (PLFRAME_ESUCCESS, Some 0x246), test_world [] 0 test_pc)
   /\ @plframe_get_reg (scripted_provider []) unmapped PLFRAME_X86_64_CS
        (test_world [] 0 test_pc)
      = (Some (PLFRAME_ESUCCESS, Some 0x2b), test_world [] 0 test_pc)
   /\ @plframe_get_reg (scripted_provider []) unmapped PLFRAME_X86_64_FS
        (test_world [] 0 test_pc)
      = (Some (PLFRAME_ESUCCESS, Some 0), test_world [] 0 test_pc)
   /\ @plframe_get_reg (scripted_provider []) unmapped PLFRAME_X86_64_GS
        (test_world [] 0 test_pc)
      = (Some (PLFRAME_ESUCCESS, Some 0), test_world [] 0 test_pc))
  /\ @plframe_get_reg (scripted_provider []) unmapped PLFRAME_X86_64_CS
       (test_world [] 3 test_pc)
     = (Some (PLFRAME_ENOTSUP, None), test_world [] 3 test_pc).
Proof.
  split.
  - apply (proj1 (@get_reg_snapshot_registers (scripted_provider []) unmapped
                    (test_world [] 0 test_pc))).
    reflexivity.
  - apply (proj2 (@get_reg_snapshot_registers (scripted_provider []) unmapped
                    (test_world [] 3 test_pc))).
    + vm_compute. discriminate.
    + cbn. auto.
Defined.

Lemma scan_stack_success_upper_bits_witness :
  2 ^ 32
  <= last_valid_frame
       (cur (snd (@plframe_cursor_scan_stack (scripted_provider [])
                    small_support 10 (test_world [] 1 test_pc))))
  < word_modulus
  /\ Z.land
       (last_valid_frame
          (cur (snd (@plframe_cursor_scan_stack (scripted_provider [])
                       small_support 10 (test_world [] 1 test_pc)))))
       upper32_mask <> 0.
Proof.
  apply (@scan_stack_success_upper_bits (scripted_provider []) small_support
           10 (test_world [] 1 test_pc)).
  vm_compute. reflexivity.
Defined.

Lemma scan_stack_terminates_within_window_witness :
  fst (@plframe_cursor_scan_stack (scripted_provider []) off_by_one_support
         502 (test_world [] 1 test_pc)) <> None
  /\ exists es,
       log (snd (@plframe_cursor_scan_stack (scripted_provider [])
                   off_by_one_support 502 (test_world [] 1 test_pc)))
       = log (test_world [] 1 test_pc) ++ es
       /\ (length (filter is_read_event es) <= 501)%nat.
Proof.
  apply (@scan_stack_terminates_within_window (scripted_provider [])
           off_by_one_support 502 (test_world [] 1 test_pc)).
  - vm_compute. discriminate.
  - vm_compute. reflexivity.
  - lia.
Defined.

Lemma next_first_call_witness :
  @plframe_cursor_next (scripted_provider []) unmapped 10
    (test_world [] (-1) test_pc)
  = (Some PLFRAME_ESUCCESS,
     mk_world (set_nframe (cur (test_world [] (-1) test_pc)) 0)
              (log (test_world [] (-1) test_pc))).
Proof.
  apply (@next_first_call (scripted_provider []) unmapped 10
           (test_world [] (-1) test_pc)).
  reflexivity.
Defined.

Lemma next_more_frames_witness :
  fst (@plframe_cursor_next (scripted_provider [(1, 0x100000b00)]) unmapped 10
         (test_world [(1, 0x100000b00)] 0 test_pc))
  = Some PLFRAME_ESUCCESS
  /\ last_valid_frame
       (cur (snd (@plframe_cursor_next (scripted_provider [(1, 0x100000b00)])
                    unmapped 10 (test_world [(1, 0x100000b00)] 0 test_pc))))
     = 0x100000b00.
Proof.
  rewrite (@next_more_frames (scripted_provider [(1, 0x100000b00)]) unmapped
             10 (test_world [(1, 0x100000b00)] 0 test_pc)
             ltac:(vm_compute; discriminate) eq_refl
             ltac:(vm_compute; reflexivity)).
  split; reflexivity.
Defined.

Lemma next_provider_error_witness :
  fst (@plframe_cursor_next (scripted_provider [(-6540, 0)]) unmapped 10
         (test_world [(-6540, 0)] 0 test_pc))
  = Some (PLFRAME_EUNWIND (-6540))
  /\ nframe
       (cur (snd (@plframe_cursor_next (scripted_provider [(-6540, 0)])
                    unmapped 10 (test_world [(-6540, 0)] 0 test_pc))))
     = 1.
Proof.
  rewrite (@next_provider_error (scripted_provider [(-6540, 0)]) unmapped
             10 (test_world [(-6540, 0)] 0 test_pc)
             ltac:(vm_compute; discriminate) eq_refl
             ltac:(vm_compute; reflexivity)).
  split; reflexivity.
Defined.

Lemma next_reseeds_after_scan_witness :
  fst (@plframe_cursor_next (scripted_provider []) small_support 10
         (test_world [] 1 test_pc))
  = Some PLFRAME_ESUCCESS
  /\ unwcrsr
       (cur (snd (@plframe_cursor_next (scripted_provider []) small_support
                    10 (test_world [] 1 test_pc))))
     = (0x100000f00, [])
  /\ nframe
       (cur (snd (@plframe_cursor_next (scripted_provider []) small_support
                    10 (test_world [] 1 test_pc))))
     = 2.
Proof.
  destruct (@next_reseeds_after_scan (scripted_provider []) small_support
              10 (test_world [] 1 test_pc)
              ltac:(vm_compute; discriminate) eq_refl eq_refl eq_refl
              ltac:(vm_compute; reflexivity)) as [Hnext Hcount].
  rewrite Hcount, Hnext.
  split; [vm_compute; reflexivity |].
  split; vm_compute; reflexivity.
Defined.

(** ** Registers: names and reads *)

(** X6.  Register names are distinct.  Two register identifiers that
    [plframe_get_regname] gives the same name are the same identifier, and
    no name is empty. *)
Theorem get_regname_injective (r1 r2 : plframe_regnum_t) (n : String.string) :
  plframe_get_regname r1 = Some n ->
  plframe_get_regname r2 = Some n ->
  r1 = r2 /\ n <> ""%string.
Proof.
  destruct r1; cbn [plframe_get_regname]; intros H1; try discriminate;
    injection H1 as <-;
    destruct r2; cbn [plframe_get_regname]; intros H2; try discriminate;
    (split; [reflexivity | discriminate]).
Qed.

Section RegisterFacts.
Context {UP : UnwindProvider} {AS : AsyncSupport}.

Lemma log_grows_ne (w : world) (e : event) (c : plframe_cursor_t) :
  mk_world c (log w ++ [e]) <> w.
Proof.
  intros H. apply (f_equal log) in H. cbn [log] in H.
  apply (f_equal (@length event)) in H.
  rewrite length_app in H. cbn [length] in H. lia.
Qed.

(** X7.  The registers with a name are the registers frame 0 supports.  On
    frame 0, [plframe_get_reg] answers [PLFRAME_ENOTSUP] without reading
    anything exactly for the identifiers [plframe_get_regname] has no name
    for (the ones it aborts on). *)
Theorem get_reg_frame_0_rejects_unnamed (w : world) (regnum : plframe_regnum_t) :
  nframe (cur w) = 0 ->
  (plframe_get_regname regnum = None
   <-> plframe_get_reg regnum w = (Some (PLFRAME_ENOTSUP, None), w)).
Proof.
  intros Hn. unfold plframe_get_reg. mstep. rewrite Hn.
  change (negb (0 =? 0)) with false. cbv beta iota.
  destruct regnum; cbn [plframe_get_regname plframe_get_reg_switch];
    split; intros H; try discriminate H; try reflexivity; exfalso;
    try match type of H with
        | context [if ?b then _ else _] => destruct b
        end;
    try discriminate H;
    apply (f_equal snd) in H; cbn [snd] in H;
    exact (log_grows_ne _ _ _ H).
Qed.

(** X8.  Reading a register changes nothing.  [plframe_get_reg] always
    returns, leaves every field of the cursor as it was, calls the provider
    at most once (a single [unw_get_reg]) and never on a frame other than 0,
    and whenever it stores a value it returns [PLFRAME_ESUCCESS]. *)
Theorem get_reg_read_only (w : world) (regnum : plframe_regnum_t) :
  cur (snd (plframe_get_reg regnum w)) = cur w
  /\ (exists es,
        log (snd (plframe_get_reg regnum w)) = log w ++ es
        /\ (es = [] \/ exists unwreg, es = [EvUnwGetReg unwreg])
        /\ (nframe (cur w) <> 0 -> es = []))
  /\ (exists e stored,
        fst (plframe_get_reg regnum w) = Some (e, stored)
        /\ (stored <> None -> e = PLFRAME_ESUCCESS)).
Proof.
  unfold plframe_get_reg. mstep.
  destruct (Z.eqb_spec (nframe (cur w)) 0) as [Hz | Hnz]; cbn [negb].
  - destruct (plframe_get_reg_switch (uap (cur w)) regnum)
      as [unwreg | e stored] eqn:Hsw.
    + destruct (fst (unw_get_reg (unwcrsr (cur w)) unwreg) =? UNW_ESUCCESS);
        cbn [fst snd cur log];
        (split; [reflexivity |]);
        (split; [exists [EvUnwGetReg unwreg];
                 split; [reflexivity |];
                 split; [right; exists unwreg; reflexivity | intros; lia] |]);
        eexists; eexists; (split; [reflexivity |]);
        intros H; try reflexivity; contradiction.
    + cbn [fst snd]. split; [reflexivity |].
      split.
      { exists []. rewrite app_nil_r.
        split; [reflexivity | split; [left; reflexivity | reflexivity]]. }
      exists e, stored. split; [reflexivity |].
      destruct regnum; cbn [plframe_get_reg_switch] in Hsw;
        try discriminate Hsw; injection Hsw as <- <-;
        intros H; try reflexivity; contradiction.
  - assert (Hlog : exists es,
               log w = log w ++ es
               /\ (es = [] \/ exists unwreg, es = [EvUnwGetReg unwreg])
               /\ (nframe (cur w) <> 0 -> es = [])).
    { exists []. rewrite app_nil_r.
      split; [reflexivity | split; [left; reflexivity | reflexivity]]. }
    destruct regnum; cbn [fst snd];
      (split; [reflexivity | split; [exact Hlog |]]);
      eexists; eexists; (split; [reflexivity |]);
      intros H; try reflexivity; contradiction.
Qed.

(** X9.  One provider register per identifier.  On frame 0 two different
    register identifiers never read the same libunwind register. *)
Theorem get_reg_switch_injective
  (ss : x86_thread_state64_t) (r1 r2 : plframe_regnum_t) (unwreg : unw_regnum_t) :
  plframe_get_reg_switch ss r1 = case_break unwreg ->
  plframe_get_reg_switch ss r2 = case_break unwreg ->
  r1 = r2.
Proof.
  destruct r1; cbn [plframe_get_reg_switch]; intros H1; try discriminate;
    injection H1 as <-;
    destruct r2; cbn [plframe_get_reg_switch]; intros H2; try discriminate;
    reflexivity.
Qed.

End RegisterFacts.

(** ** Calls on the collaborators *)

Lemma reading_after_app (es1 es2 : list event) :
  forall reading,
    reading_after reading (es1 ++ es2)
    = match reading_after reading es1 with
      | Some r => reading_after r es2
      | None => None
      end.
Proof.
  induction es1 as [| e es1 IH]; intros reading; [reflexivity |].
  destruct e; cbn [app reading_after]; try apply IH.
  - destruct (Bool.eqb b reading); [reflexivity | apply IH].
  - destruct reading; [apply IH | reflexivity].
Qed.

Lemma count_steps_app (es1 es2 : list event) :
  count_steps (es1 ++ es2) = (count_steps es1 + count_steps es2)%nat.
Proof. unfold count_steps. rewrite filter_app, length_app. reflexivity. Qed.

Section TraceFacts.
Context {UP : UnwindProvider} {AS : AsyncSupport}.

Lemma calm_app (es1 es2 : list event) :
  calm es1 -> calm es2 -> calm (es1 ++ es2).
Proof.
  intros [Hr1 Hc1] [Hr2 Hc2]. split.
  - rewrite reading_after_app, Hr1. exact Hr2.
  - rewrite count_steps_app, Hc1, Hc2. reflexivity.
Qed.

Lemma image_list_loop_reading (address : Z) (l : list plcrash_async_image_t) :
  forall w, exists es,
    image_list_loop address l w
    = (Some (existsb (address_in_image address) l),
       mk_world (cur w) (log w ++ es))
    /\ reading_after true es = Some true
    /\ count_steps es = 0%nat.
Proof.
  induction l as [| entry rest IH]; intros w; cbn [image_list_loop existsb].
  - exists [EvImageListNext]. mstep.
    split; [reflexivity | split; reflexivity].
  - mstep. destruct (address_in_image address entry); cbn [orb].
    + exists [EvImageListNext]. split; [reflexivity | split; reflexivity].
    + destruct (IH (mk_world (cur w) (log w ++ [EvImageListNext])))
        as (es & Heq & Hr & Hc).
      exists (EvImageListNext :: es). rewrite Heq. cbn [cur log].
      rewrite <- app_assoc. cbn [app].
      split; [reflexivity | split; [exact Hr | exact Hc]].
Qed.

Lemma looks_valid_calm (address : Z) (w : world) :
  exists es,
    plframe_cursor_address_looks_valid address w
    = (Some (looks_valid (image_list (cur w)) address),
       mk_world (cur w) (log w ++ es))
    /\ calm es.
Proof.
  unfold plframe_cursor_address_looks_valid, looks_valid.
  destruct (Z.eqb_spec (Z.land address upper32_mask) 0) as [Hz | Hnz].
  - exists []. mstep. rewrite world_eta. cbn [negb andb].
    split; [reflexivity | split; reflexivity].
  - mstep.
    destruct (image_list_loop_reading address (image_list (cur w))
                (mk_world (cur w) (log w ++ [EvImageListSetReading true])))
      as (es & Heq & Hr & Hc).
    rewrite Heq. cbn [cur log fst snd]. cbn [negb andb].
    exists (EvImageListSetReading true :: es ++ [EvImageListSetReading false]).
    split; [| split].
    + f_equal. f_equal. rewrite <- !app_assoc. reflexivity.
    + cbn [reading_after Bool.eqb]. rewrite reading_after_app, Hr. reflexivity.
    + change (EvImageListSetReading true :: es ++ [EvImageListSetReading false])
        with ([EvImageListSetReading true] ++ es ++ [EvImageListSetReading false]).
      rewrite !count_steps_app, Hc. reflexivity.
Qed.

Lemma scan_loop_calm (fuel : nat) :
  forall loc w, exists es,
    log (snd (scan_loop fuel loc w)) = log w ++ es /\ calm es.
Proof.
  assert (Hnil : calm []) by (split; reflexivity).
  induction fuel as [| fuel IH]; intros loc w; cbn [scan_loop]; mstep.
  - exists []. rewrite app_nil_r. split; [reflexivity | exact Hnil].
  - destruct (loc <=? wadd (last_stack_pointer (cur w))
                             (search_space * sizeof_greg)).
    2:{ exists []. cbn [snd]. rewrite app_nil_r.
        split; [reflexivity | exact Hnil]. }
    assert (Hread : calm [EvReadAddr loc]) by (split; reflexivity).
    destruct (plframe_read_addr loc (Z.to_nat sizeof_greg)) as [bytes |].
    2:{ exists [EvReadAddr loc]. split; [reflexivity | exact Hread]. }
    destruct (looks_valid_calm (le_decode bytes)
                (mk_world (cur w) (log w ++ [EvReadAddr loc])))
      as (es & Heq & Hcalm).
    rewrite Heq. cbn [cur log fst snd].
    destruct (looks_valid (image_list (cur w)) (le_decode bytes)).
    + exists ([EvReadAddr loc] ++ es). cbn [snd log].
      rewrite <- app_assoc.
      split; [reflexivity | apply calm_app; assumption].
    + destruct (IH (wadd loc sizeof_greg)
                   (mk_world (cur w) ((log w ++ [EvReadAddr loc]) ++ es)))
        as (es' & Hlog & Hcalm').
      exists ([EvReadAddr loc] ++ es ++ es'). rewrite Hlog. cbn [log].
      rewrite <- !app_assoc.
      split; [reflexivity |].
      apply calm_app; [exact Hread | apply calm_app; assumption].
Qed.

Lemma scan_stack_calm (fuel : nat) (w : world) :
  exists es,
    log (snd (plframe_cursor_scan_stack fuel w)) = log w ++ es /\ calm es.
Proof.
  unfold plframe_cursor_scan_stack. mstep. apply scan_loop_calm.
Qed.

Lemma scan_stack_keeps_rest (fuel : nat) (w : world) :
  image_list (cur (snd (plframe_cursor_scan_stack fuel w)))
  = image_list (cur w)
  /\ fp0 (cur (snd (plframe_cursor_scan_stack fuel w))) = fp0 (cur w).
Proof.
  destruct (scan_stack_effect fuel w) as [_ Hcur].
  destruct (fst (plframe_cursor_scan_stack fuel w)) as [[| | | | |] |];
    try contradiction; try (rewrite Hcur; split; reflexivity).
  destruct Hcur as (loc & data & -> & _). split; reflexivity.
Qed.

(** What a call of [plframe_cursor_next] keeps and what it calls. *)
Lemma next_keeps_and_calls (fuel : nat) (w : world) :
  (uap (cur (snd (plframe_cursor_next fuel w))) = uap (cur w)
   /\ image_list (cur (snd (plframe_cursor_next fuel w))) = image_list (cur w)
   /\ fp0 (cur (snd (plframe_cursor_next fuel w))) = fp0 (cur w))
  /\ exists es,
       log (snd (plframe_cursor_next fuel w)) = log w ++ es
       /\ reading_after false es = Some false
       /\ (count_steps es <= 1)%nat
       /\ (nframe (cur w) = -1 \/ endstack (cur w) = true -> es = []).
Proof.
  assert (Hnil : log w = log w ++ []) by (rewrite app_nil_r; reflexivity).
  unfold plframe_cursor_next, plframe_cursor_next_with. mstep.
  destruct (Z.eqb_spec (nframe (cur w)) (-1)) as [Hfirst | Hwalk].
  { fields. split; [split; [| split]; reflexivity |].
    exists []. split; [exact Hnil |].
    split; [reflexivity | split; [cbn; lia | reflexivity]]. }
  destruct (endstack (cur w)) eqn:Hend.
  { fields. split; [split; [| split]; reflexivity |].
    exists []. split; [exact Hnil |].
    split; [reflexivity | split; [cbn; lia | reflexivity]]. }
  assert (Hno : nframe (cur w) = -1 \/ false = true -> False)
    by (intros [H | H]; [contradiction | discriminate]).
  fields.
  destruct (fst (unw_step (unwcrsr (cur w))) <? 0).
  { fields. split; [split; [| split]; reflexivity |].
    eexists. split; [rewrite <- !app_assoc; reflexivity |].
    split; [reflexivity | split; [cbn; lia | intros H; destruct (Hno H)]]. }
  destruct (fst (unw_step (unwcrsr (cur w))) =? 0); fields.
  2:{ split; [split; [| split]; reflexivity |].
      eexists. split; [rewrite <- !app_assoc; reflexivity |].
      split; [reflexivity | split; [cbn; lia | intros H; destruct (Hno H)]]. }
  match goal with |- context [if ?b then _ else _] => destruct b end; fields.
  2:{ split; [split; [| split]; reflexivity |].
      eexists. split; [rewrite <- !app_assoc; reflexivity |].
      split; [reflexivity | split; [cbn; lia | intros H; destruct (Hno H)]]. }
  match goal with |- context [plframe_cursor_scan_stack fuel ?w1] =>
    pose proof (scan_stack_keeps_uap fuel w1) as Huap;
    pose proof (scan_stack_keeps_rest fuel w1) as [Himg Hfp];
    destruct (scan_stack_calm fuel w1) as (es & Hlog & Hr & Hc);
    destruct (plframe_cursor_scan_stack fuel w1) as [[result |] w2]
  end; cbn [fst snd cur log uap image_list fp0 set_nframe set_unwcrsr
            set_last_unwind_address] in Huap, Himg, Hfp, Hlog.
  2:{ fields. split; [split; [| split]; assumption |].
      eexists. split; [rewrite Hlog, <- !app_assoc; reflexivity |].
      cbn [app reading_after]. rewrite Hr.
      split; [reflexivity |].
      split; [| intros H; destruct (Hno H)].
      change (EvUnwGetReg UNW_REG_IP :: EvUnwStep :: EvUnwGetReg UNW_REG_IP
                :: EvScanStack :: es)
        with ([EvUnwGetReg UNW_REG_IP; EvUnwStep; EvUnwGetReg UNW_REG_IP;
               EvScanStack] ++ es).
      rewrite count_steps_app, Hc. cbn. lia. }
  assert (Hsteps : forall tail,
             count_steps tail = 0%nat ->
             (count_steps ([EvUnwGetReg UNW_REG_IP; EvUnwStep;
                            EvUnwGetReg UNW_REG_IP; EvScanStack]
                           ++ es ++ tail) <= 1)%nat).
  { intros tail Ht. rewrite !count_steps_app, Hc, Ht. cbn. lia. }
  assert (Hmark : forall tail,
             reading_after false tail = Some false ->
             reading_after false
               ([EvUnwGetReg UNW_REG_IP; EvUnwStep;
                 EvUnwGetReg UNW_REG_IP; EvScanStack] ++ es ++ tail)
             = Some false).
  { intros tail Ht. cbn [app reading_after].
    rewrite reading_after_app, Hr. exact Ht. }
  destruct (plframe_error_eqb result PLFRAME_ENOFRAME); fields.
  { split; [split; [| split]; assumption |].
    eexists. split; [rewrite Hlog, <- !app_assoc; reflexivity |].
    split; [apply (Hmark [EvUnwGetReg UNW_REG_IP]); reflexivity |].
    split; [apply (Hsteps [EvUnwGetReg UNW_REG_IP]); reflexivity |].
    intros H; destruct (Hno H). }
  destruct (plframe_error_eqb result PLFRAME_ESUCCESS); cbn [negb]; fields.
  { split; [split; [| split]; assumption |].
    eexists. split; [rewrite Hlog, <- !app_assoc; reflexivity |].
    split; [apply (Hmark [EvUnwInitLocal]); reflexivity |].
    split; [apply (Hsteps [EvUnwInitLocal]); reflexivity |].
    intros H; destruct (Hno H). }
  split; [split; [| split]; assumption |].
  exists ([EvUnwGetReg UNW_REG_IP; EvUnwStep;
           EvUnwGetReg UNW_REG_IP; EvScanStack] ++ es ++ []).
  rewrite app_nil_r.
  split; [rewrite Hlog, <- !app_assoc; reflexivity |].
  rewrite <- (app_nil_r es) at 1 2.
  split; [apply (Hmark []); reflexivity |].
  split; [apply (Hsteps []); reflexivity |].
  intros H; destruct (Hno H).
Qed.

End TraceFacts.

Section TraceClaims.
Context {UP : UnwindProvider} {AS : AsyncSupport}.

(** X10.  The scanner and the image list.  Whatever the outcome,
    [plframe_cursor_scan_stack] never calls libunwind, and its calls on the
    image list respect the reading marker: every
    [plcrash_async_image_list_next] is made with the marker set, and the
    marker is clear again when the function is left. *)
Theorem scan_stack_marks_reading (fuel : nat) (w : world) :
  exists es,
    log (snd (plframe_cursor_scan_stack fuel w)) = log w ++ es
    /\ reading_after false es = Some false
    /\ Forall (fun e => is_unw_event e = false) es.
Proof.
  destruct (scan_stack_calm fuel w) as (es & Hlog & Hmark & _).
  destruct (scan_stack_effect fuel w) as [(es' & Hlog' & Hquiet) _].
  exists es. split; [exact Hlog | split; [exact Hmark |]].
  rewrite Hlog in Hlog'. apply app_inv_head in Hlog'. subst es'.
  eapply Forall_impl; [| exact Hquiet]. intros e [He _]. exact He.
Qed.

(** X11.  What one advance does besides counting frames.  Whatever the
    outcome, [plframe_cursor_next] leaves the thread-state snapshot, the
    image list and [fp[0]] of the cursor as they were, steps the provider at
    most once, leaves the reading marker of the image list clear, and calls
    no collaborator at all on the first call ([nframe = -1]) or once the
    end-of-stack flag is set. *)
Theorem next_effect (fuel : nat) (w : world) :
  (uap (cur (snd (plframe_cursor_next fuel w))) = uap (cur w)
   /\ image_list (cur (snd (plframe_cursor_next fuel w))) = image_list (cur w)
   /\ fp0 (cur (snd (plframe_cursor_next fuel w))) = fp0 (cur w))
  /\ exists es,
       log (snd (plframe_cursor_next fuel w)) = log w ++ es
       /\ reading_after false es = Some false
       /\ (count_steps es <= 1)%nat
       /\ (nframe (cur w) = -1 \/ endstack (cur w) = true -> es = []).
Proof.
  destruct (next_keeps_and_calls fuel w) as [Hkeeps (es & Hlog & Hcalls)].
  split; [exact Hkeeps |].
  exists es. split; [exact Hlog | exact Hcalls].
Qed.

(** X12.  Every walking call counts a frame.  On the first call, and on
    every call made while the end-of-stack flag is clear, the frame index
    grows by exactly one, whatever the call returns (success, a provider
    error, or running out of fuel inside the scanner). *)
Theorem next_counts_every_call (fuel : nat) (w : world) :
  nframe (cur w) = -1 \/ endstack (cur w) = false ->
  nframe (cur (snd (plframe_cursor_next fuel w))) = nframe (cur w) + 1.
Proof.
  intros Hcase.
  destruct (Z.eq_dec (nframe (cur w)) (-1)) as [Hfirst | Hwalk].
  - unfold plframe_cursor_next. rewrite next_first_frame by exact Hfirst.
    cbn [snd cur set_nframe nframe]. lia.
  - destruct Hcase as [Hfirst | Hend]; [contradiction |].
    apply next_counts_frame; assumption.
Qed.

End TraceClaims.

(** ** The scanner, case by case *)

Section ScanCases.
Context {UP : UnwindProvider} {AS : AsyncSupport}.

(** The loop entered at [loc] with [n] rejected words ahead, then a word
    that cannot be read or the end of the window. *)
Lemma scan_loop_gives_up (n : nat) :
  forall fuel loc w,
    0 <= last_stack_pointer (cur w) <= loc ->
    last_stack_pointer (cur w) + search_space * sizeof_greg < word_modulus ->
    loc + sizeof_greg * Z.of_nat n < word_modulus ->
    (forall j, (j < n)%nat ->
       loc + sizeof_greg * Z.of_nat j
         <= last_stack_pointer (cur w) + search_space * sizeof_greg
       /\ exists bs,
            plframe_read_addr (loc + sizeof_greg * Z.of_nat j)
                              (Z.to_nat sizeof_greg) = Some bs
            /\ looks_valid (image_list (cur w)) (le_decode bs) = false) ->
    (n < fuel)%nat ->
    (plframe_read_addr (loc + sizeof_greg * Z.of_nat n)
                       (Z.to_nat sizeof_greg) = None
     /\ loc + sizeof_greg * Z.of_nat n
          <= last_stack_pointer (cur w) + search_space * sizeof_greg ->
     fst (scan_loop fuel loc w) = Some PLFRAME_ENOFRAME
     /\ cur (snd (scan_loop fuel loc w)) = cur w
     /\ exists es,
          log (snd (scan_loop fuel loc w)) = log w ++ es
          /\ length (filter is_read_event es) = S n)
    /\ (last_stack_pointer (cur w) + search_space * sizeof_greg
          < loc + sizeof_greg * Z.of_nat n ->
        fst (scan_loop fuel loc w) = Some PLFRAME_ENOFRAME
        /\ cur (snd (scan_loop fuel loc w)) = cur w
        /\ exists es,
             log (snd (scan_loop fuel loc w)) = log w ++ es
             /\ length (filter is_read_event es) = n).
Proof.
  induction n as [| n IH]; intros fuel loc w Hsp Hwin Hloc Hrej Hfuel;
    (destruct fuel as [| fuel]; [lia |]); cbn [scan_loop]; mstep;
    rewrite (wadd_small (last_stack_pointer (cur w)))
      by (unfold search_space, sizeof_greg in *; lia).
  - replace (loc + sizeof_greg * Z.of_nat 0) with loc in * by lia.
    split.
    + intros [Hfault Hin].
      destruct (Z.leb_spec loc
                  (last_stack_pointer (cur w) + search_space * sizeof_greg));
        [| lia].
      rewrite Hfault. cbn [fst snd cur log].
      split; [reflexivity | split; [reflexivity |]].
      exists [EvReadAddr loc]. split; reflexivity.
    + intros Hout.
      destruct (Z.leb_spec loc
                  (last_stack_pointer (cur w) + search_space * sizeof_greg));
        [lia |].
      cbn [fst snd]. split; [reflexivity | split; [reflexivity |]].
      exists []. rewrite app_nil_r. split; reflexivity.
  - destruct (Hrej 0%nat) as (Hin0 & bs & Hbs & Hno); [lia |].
    replace (loc + sizeof_greg * Z.of_nat 0) with loc in Hin0, Hbs by lia.
    destruct (Z.leb_spec loc
                (last_stack_pointer (cur w) + search_space * sizeof_greg));
      [| lia].
    rewrite Hbs.
    destruct (looks_valid_spec (le_decode bs)
                (mk_world (cur w) (log w ++ [EvReadAddr loc])))
      as (es & Heq & Hev & _).
    rewrite Heq. cbn [cur log fst snd]. rewrite Hno.
    rewrite (wadd_small loc) by (unfold search_space, sizeof_greg in *; lia).
    replace (loc + sizeof_greg * Z.of_nat (S n))
      with ((loc + sizeof_greg) + sizeof_greg * Z.of_nat n) in * by lia.
    destruct (IH fuel (loc + sizeof_greg)
                 (mk_world (cur w) ((log w ++ [EvReadAddr loc]) ++ es)))
      as [Hfault Hout]; cbn [cur log];
      try (unfold search_space, sizeof_greg in *; lia).
    { intros j Hj. destruct (Hrej (S j)) as (Hin & bs' & Hbs' & Hno');
        [lia |].
      replace (loc + sizeof_greg + sizeof_greg * Z.of_nat j)
        with (loc + sizeof_greg * Z.of_nat (S j)) by lia.
      split; [exact Hin |]. exists bs'. split; assumption. }
    assert (Hshift : forall es' k,
               length (filter is_read_event es') = k ->
               length (filter is_read_event ([EvReadAddr loc] ++ es ++ es'))
               = S k).
    { intros es' k Hk. rewrite !filter_app, !length_app.
      rewrite (image_events_no_read es Hev), Hk. reflexivity. }
    cbn [cur log] in Hfault, Hout.
    split; intros Hstop;
      [destruct (Hfault Hstop) as (Hres & Hcur & es' & Hlog & Hcount)
      | destruct (Hout Hstop) as (Hres & Hcur & es' & Hlog & Hcount)];
      (split; [exact Hres | split; [exact Hcur |]]);
      exists ([EvReadAddr loc] ++ es ++ es');
      (split; [rewrite Hlog, <- !app_assoc; reflexivity
              | apply Hshift; exact Hcount]).
Qed.

(** The loop entered at [loc], when it returns [PLFRAME_ESUCCESS]. *)
Lemma scan_loop_success_inv (fuel : nat) :
  forall loc w,
    0 <= last_stack_pointer (cur w) <= loc ->
    last_stack_pointer (cur w) + search_space * sizeof_greg + sizeof_greg
      < word_modulus ->
    fst (scan_loop fuel loc w) = Some PLFRAME_ESUCCESS ->
    exists (n : nat) bytes,
      loc + sizeof_greg * Z.of_nat n
        <= last_stack_pointer (cur w) + search_space * sizeof_greg
      /\ (forall j, (j < n)%nat ->
            exists bs,
              plframe_read_addr (loc + sizeof_greg * Z.of_nat j)
                                (Z.to_nat sizeof_greg) = Some bs
              /\ looks_valid (image_list (cur w)) (le_decode bs) = false)
      /\ plframe_read_addr (loc + sizeof_greg * Z.of_nat n)
                           (Z.to_nat sizeof_greg) = Some bytes
      /\ looks_valid (image_list (cur w)) (le_decode bytes) = true
      /\ cur (snd (scan_loop fuel loc w))
         = set_last_valid_frame
             (set_last_stack_pointer (cur w)
                (loc + sizeof_greg * Z.of_nat n + sizeof_greg))
             (le_decode bytes).
Proof.
  induction fuel as [| fuel IH]; intros loc w Hsp Hwin; cbn [scan_loop]; mstep.
  - discriminate.
  - rewrite (wadd_small (last_stack_pointer (cur w)))
      by (unfold search_space, sizeof_greg in *; lia).
    destruct (Z.leb_spec loc
                (last_stack_pointer (cur w) + search_space * sizeof_greg))
      as [Hin | Hout]; [| discriminate].
    destruct (plframe_read_addr loc (Z.to_nat sizeof_greg)) as [bytes |]
      eqn:Hread; [| discriminate].
    destruct (looks_valid_spec (le_decode bytes)
                (mk_world (cur w) (log w ++ [EvReadAddr loc])))
      as (es & Heq & _).
    rewrite Heq. cbn [cur log fst snd].
    destruct (looks_valid (image_list (cur w)) (le_decode bytes)) eqn:Hvalid.
    + intros _. exists 0%nat, bytes.
      replace (loc + sizeof_greg * Z.of_nat 0) with loc by lia.
      rewrite (wadd_small loc) by (unfold search_space, sizeof_greg in *; lia).
      split; [exact Hin |].
      split; [intros j Hj; lia |].
      split; [exact Hread | split; [exact Hvalid | reflexivity]].
    + rewrite (wadd_small loc) by (unfold search_space, sizeof_greg in *; lia).
      intros Hok.
      destruct (IH (loc + sizeof_greg)
                   (mk_world (cur w) ((log w ++ [EvReadAddr loc]) ++ es)))
        as (n & bytes' & Hin' & Hrej & Hread' & Hvalid' & Hcur);
        cbn [cur log]; try (unfold search_space, sizeof_greg in *; lia);
        [exact Hok |].
      cbn [cur log] in *.
      exists (S n), bytes'.
      replace (loc + sizeof_greg * Z.of_nat (S n))
        with (loc + sizeof_greg + sizeof_greg * Z.of_nat n) by lia.
      split; [exact Hin' |].
      split.
      { intros j Hj. destruct j as [| j].
        - exists bytes.
          replace (loc + sizeof_greg * Z.of_nat 0) with loc by lia.
          split; assumption.
        - destruct (Hrej j) as (bs & Hbs & Hno); [lia |].
          exists bs.
          replace (loc + sizeof_greg * Z.of_nat (S j))
            with (loc + sizeof_greg + sizeof_greg * Z.of_nat j) by lia.
          split; assumption. }
      split; [exact Hread' | split; [exact Hvalid' | exact Hcur]].
Qed.

End ScanCases.

Section ScanCaseClaims.
Context {UP : UnwindProvider} {AS : AsyncSupport}.

Lemma stack_word_rejected (w : world) (sp i : Z) :
  (exists v, stack_word sp i = Some v
             /\ fst (plframe_cursor_address_looks_valid v w) = Some false) ->
  exists bs,
    plframe_read_addr (sp + sizeof_greg * i) (Z.to_nat sizeof_greg) = Some bs
    /\ looks_valid (image_list (cur w)) (le_decode bs) = false.
Proof.
  intros (v & Hv & Hno). unfold stack_word in Hv.
  destruct (plframe_read_addr (sp + sizeof_greg * i) (Z.to_nat sizeof_greg))
    as [bs |]; [| discriminate].
  cbn [option_map] in Hv. injection Hv as <-.
  rewrite looks_valid_result in Hno. injection Hno as Hno.
  exists bs. split; [reflexivity | exact Hno].
Qed.

(** X13.  The scanner stops at the first word it cannot read.  When the
    window lies inside the address space, the words [0 .. K-1] above
    [last_stack_pointer] are readable and rejected and the read of word
    [K <= search_space] faults, [plframe_cursor_scan_stack] returns
    [PLFRAME_ENOFRAME] after exactly [K+1] reads and leaves the cursor as it
    was. *)
Theorem scan_stack_stops_at_fault (fuel : nat) (w : world) (K : Z) :
  0 <= last_stack_pointer (cur w) ->
  last_stack_pointer (cur w) + search_space * sizeof_greg < word_modulus ->
  0 <= K <= search_space ->
  (forall i, 0 <= i < K ->
     exists v, stack_word (last_stack_pointer (cur w)) i = Some v
               /\ fst (plframe_cursor_address_looks_valid v w) = Some false) ->
  stack_word (last_stack_pointer (cur w)) K = None ->
  (Z.to_nat K < fuel)%nat ->
  fst (plframe_cursor_scan_stack fuel w) = Some PLFRAME_ENOFRAME
  /\ cur (snd (plframe_cursor_scan_stack fuel w)) = cur w
  /\ exists es,
       log (snd (plframe_cursor_scan_stack fuel w)) = log w ++ es
       /\ Z.of_nat (length (filter is_read_event es)) = K + 1.
Proof.
  intros Hsp Hwin HK Hrej Hfault Hfuel.
  unfold stack_word in Hfault.
  destruct (plframe_read_addr (last_stack_pointer (cur w) + sizeof_greg * K)
              (Z.to_nat sizeof_greg)) eqn:Hread; [discriminate |].
  unfold plframe_cursor_scan_stack. mstep.
  destruct (scan_loop_gives_up (Z.to_nat K) fuel
              (last_stack_pointer (cur w)) w) as [Hstop _];
    try assumption; try (unfold search_space, sizeof_greg in *; lia).
  { intros j Hj. split; [unfold search_space, sizeof_greg in *; lia |].
    apply stack_word_rejected. apply Hrej. lia. }
  rewrite Z2Nat.id in Hstop by lia.
  destruct Hstop as (Hres & Hcur & es & Hlog & Hcount).
  { split; [exact Hread | unfold search_space, sizeof_greg in *; lia]. }
  split; [exact Hres | split; [exact Hcur |]].
  exists es. split; [exact Hlog |]. rewrite Hcount. lia.
Qed.

(** X14.  The scanner gives up after 501 words.  When the window and the
    word after it lie inside the address space and the 501 words
    [0 .. search_space] above [last_stack_pointer] are all readable and
    rejected, [plframe_cursor_scan_stack] returns [PLFRAME_ENOFRAME] after
    exactly 501 reads and leaves the cursor as it was. *)
Theorem scan_stack_exhausts_window (fuel : nat) (w : world) :
  0 <= last_stack_pointer (cur w) ->
  last_stack_pointer (cur w) + search_space * sizeof_greg + sizeof_greg
    < word_modulus ->
  (forall i, 0 <= i <= search_space ->
     exists v, stack_word (last_stack_pointer (cur w)) i = Some v
               /\ fst (plframe_cursor_address_looks_valid v w) = Some false) ->
  (501 < fuel)%nat ->
  fst (plframe_cursor_scan_stack fuel w) = Some PLFRAME_ENOFRAME
  /\ cur (snd (plframe_cursor_scan_stack fuel w)) = cur w
  /\ exists es,
       log (snd (plframe_cursor_scan_stack fuel w)) = log w ++ es
       /\ length (filter is_read_event es) = 501%nat.
Proof.
  intros Hsp Hwin Hrej Hfuel.
  unfold plframe_cursor_scan_stack. mstep.
  destruct (scan_loop_gives_up 501 fuel (last_stack_pointer (cur w)) w)
    as [_ Hstop];
    try assumption; try (unfold search_space, sizeof_greg in *; lia).
  { intros j Hj. split; [unfold search_space, sizeof_greg in *; lia |].
    apply stack_word_rejected. apply Hrej.
    unfold search_space. lia. }
  apply Hstop. unfold search_space, sizeof_greg. lia.
Qed.

(** X15.  The scanner returns the first accepted word.  When the window
    and the word after it lie inside the address space and
    [plframe_cursor_scan_stack] returns [PLFRAME_ESUCCESS], the recorded
    [last_valid_frame] is the word number [K <= search_space] above the
    old [last_stack_pointer], the validator accepts it, every word before it
    was readable and rejected, and the new [last_stack_pointer] is one word
    past it (so it has grown). *)
Theorem scan_stack_success_is_first_match (fuel : nat) (w : world) :
  0 <= last_stack_pointer (cur w) ->
  last_stack_pointer (cur w) + search_space * sizeof_greg + sizeof_greg
    < word_modulus ->
  fst (plframe_cursor_scan_stack fuel w) = Some PLFRAME_ESUCCESS ->
  exists K,
    0 <= K <= search_space
    /\ stack_word (last_stack_pointer (cur w)) K
       = Some (last_valid_frame (cur (snd (plframe_cursor_scan_stack fuel w))))
    /\ fst (plframe_cursor_address_looks_valid
              (last_valid_frame (cur (snd (plframe_cursor_scan_stack fuel w))))
              w) = Some true
    /\ last_stack_pointer (cur (snd (plframe_cursor_scan_stack fuel w)))
       = last_stack_pointer (cur w) + sizeof_greg * K + sizeof_greg
    /\ (forall i, 0 <= i < K ->
          exists v,
            stack_word (last_stack_pointer (cur w)) i = Some v
            /\ fst (plframe_cursor_address_looks_valid v w) = Some false).
Proof.
  intros Hsp Hwin. unfold plframe_cursor_scan_stack. mstep. intros Hok.
  destruct (scan_loop_success_inv fuel (last_stack_pointer (cur w)) w)
    as (n & bytes & Hin & Hrej & Hread & Hvalid & Hcur);
    try assumption; try lia.
  rewrite Hcur. cbn [set_last_valid_frame set_last_stack_pointer
                     last_valid_frame last_stack_pointer].
  exists (Z.of_nat n).
  split; [unfold search_space, sizeof_greg in *; lia |].
  split; [unfold stack_word; rewrite Hread; reflexivity |].
  split; [rewrite looks_valid_result; rewrite Hvalid; reflexivity |].
  split; [reflexivity |].
  intros i Hi.
  destruct (Hrej (Z.to_nat i)) as (bs & Hbs & Hno); [lia |].
  rewrite Z2Nat.id in Hbs by lia.
  exists (le_decode bs).
  split; [unfold stack_word; rewrite Hbs; reflexivity |].
  rewrite looks_valid_result, Hno. reflexivity.
Qed.

(** X16.  A window that runs over the end of the address space is not
    scanned.  When [last_stack_pointer + search_space * 8] does not fit in
    64 bits, the bound of the loop wraps below [last_stack_pointer]: the
    scanner returns [PLFRAME_ENOFRAME] at once, without reading a word, and
    leaves the world as it was, whatever the memory holds. *)
Theorem scan_stack_wrapped_window (fuel : nat) (w : world) :
  0 <= last_stack_pointer (cur w) < word_modulus ->
  word_modulus <= last_stack_pointer (cur w) + search_space * sizeof_greg ->
  (1 <= fuel)%nat ->
  plframe_cursor_scan_stack fuel w = (Some PLFRAME_ENOFRAME, w).
Proof.
  intros Hsp Hwrap Hfuel.
  destruct fuel as [| fuel]; [lia |].
  unfold plframe_cursor_scan_stack. mstep. cbn [scan_loop]. mstep.
  assert (Hbound : wadd (last_stack_pointer (cur w))
                     (search_space * sizeof_greg)
                   = last_stack_pointer (cur w) + search_space * sizeof_greg
                     - word_modulus).
  { unfold wadd. symmetry. apply Z.mod_unique with (q := 1);
      unfold word_modulus, search_space, sizeof_greg in *; lia. }
  rewrite Hbound.
  destruct (Z.leb_spec (last_stack_pointer (cur w))
              (last_stack_pointer (cur w) + search_space * sizeof_greg
               - word_modulus)) as [Hle | Hgt].
  - unfold word_modulus, search_space, sizeof_greg in *. lia.
  - reflexivity.
Qed.




End ScanCaseClaims.

(** ** Initialisation *)

Section InitClaims.
Context {UP : UnwindProvider} {AS : AsyncSupport}.

(** X18.  A fresh walk.  Whatever the cursor held before (a finished walk
    included), after [plframe_cursor_init] over the snapshot [ss] the first
    [plframe_cursor_next] returns [PLFRAME_ESUCCESS] without stepping the
    provider and leaves the cursor at frame 0 with the flag clear,
    [last_valid_frame] at the snapshot's [rip] and [last_stack_pointer] at
    its [rsp]; at that frame [plframe_get_reg] gives the snapshot's
    [rflags], [cs], [fs] and [gs]. *)
Theorem init_then_first_frame (fuel : nat) (w0 : world)
  (ss : x86_thread_state64_t) (images : list plcrash_async_image_t) :
  fst (plframe_cursor_init ss images w0)
  = Some (plframe_error_from_unwerror (fst (unw_init_local ss)))
  /\ plframe_cursor_next fuel (snd (plframe_cursor_init ss images w0))
     = (Some PLFRAME_ESUCCESS,
        mk_world
          (mk_cursor ss 0 0 images false 0 (__rsp ss) (__rip ss)
                     (snd (unw_init_local ss)))
          (log w0 ++ [EvUnwInitLocal]))
  /\ (forall w1,
        w1 = snd (plframe_cursor_next fuel
                    (snd (plframe_cursor_init ss images w0))) ->
        plframe_get_reg PLFRAME_X86_64_RFLAGS w1
        = (Some (PLFRAME_ESUCCESS, Some (__rflags ss)), w1)
        /\ plframe_get_reg PLFRAME_X86_64_CS w1
           = (Some (PLFRAME_ESUCCESS, Some (__cs ss)), w1)
        /\ plframe_get_reg PLFRAME_X86_64_FS w1
           = (Some (PLFRAME_ESUCCESS, Some (__fs ss)), w1)
        /\ plframe_get_reg PLFRAME_X86_64_GS w1
           = (Some (PLFRAME_ESUCCESS, Some (__gs ss)), w1)).
Proof.
  assert (Hnext : plframe_cursor_next fuel
                    (snd (plframe_cursor_init ss images w0))
                  = (Some PLFRAME_ESUCCESS,
                     mk_world
                       (mk_cursor ss 0 0 images false 0 (__rsp ss) (__rip ss)
                                  (snd (unw_init_local ss)))
                       (log w0 ++ [EvUnwInitLocal]))).
  { unfold plframe_cursor_next. rewrite next_first_frame; reflexivity. }
  split; [reflexivity | split; [exact Hnext |]].
  intros w1 ->. rewrite Hnext. cbn [snd].
  unfold plframe_get_reg. mstep. cbn [nframe uap].
  change (negb (0 =? 0)) with false. cbv beta iota.
  cbn [plframe_get_reg_switch].
  split; [| split; [| split]]; reflexivity.
Qed.

End InitClaims.

Section ThreadInitClaims.
Context {UP : UnwindProvider} {AS : AsyncSupport} {TP : ThreadStateProvider}.

(** X19.  A failed fetch.  [plframe_cursor_thread_init] clears the signal
    mask of the cursor's own context, then fetches the general-purpose, the
    floating-point and the exception state in that order and stops at the
    first [thread_get_state] that does not return [KERN_SUCCESS]: it then
    returns [PLFRAME_INTERNAL], makes no further fetch and does not
    initialise the provider (no call is logged).  What has changed by then
    is the cursor's own storage: the signal mask is cleared, and each buffer
    a fetch was made into holds what that fetch left there.  The frame
    index, the flag, the watermarks, the image list and the provider's state
    of the cursor are as they were; so is the snapshot the cursor points
    to, unless it is the cursor's own context, which the first fetch writes
    into. *)
Theorem thread_init_fetch_failure (thread : thread_t)
  (images : list plcrash_async_image_t) (tc : thread_cursor) :
  fst (thread_get_state thread x86_THREAD_STATE64 (_mcontext_data_ss tc))
    <> KERN_SUCCESS
  \/ fst (thread_get_state thread x86_FLOAT_STATE64 (_mcontext_data_fs tc))
       <> KERN_SUCCESS
  \/ fst (thread_get_state thread x86_EXCEPTION_STATE64 (_mcontext_data_es tc))
       <> KERN_SUCCESS ->
  fst (plframe_cursor_thread_init thread images tc) = Some PLFRAME_INTERNAL
  /\ log (tc_world (snd (plframe_cursor_thread_init thread images tc)))
     = log (tc_world tc)
  /\ set_uap (cur (tc_world (snd (plframe_cursor_thread_init thread images tc))))
             (uap (cur (tc_world tc)))
     = cur (tc_world tc)
  /\ (uap_is_own tc = false ->
      tc_world (snd (plframe_cursor_thread_init thread images tc))
      = tc_world tc)
  /\ uap_is_own (snd (plframe_cursor_thread_init thread images tc))
     = uap_is_own tc
  /\ _uap_data_sigmask (snd (plframe_cursor_thread_init thread images tc)) = 0
  /\ _mcontext_data_ss (snd (plframe_cursor_thread_init thread images tc))
     = snd (thread_get_state thread x86_THREAD_STATE64 (_mcontext_data_ss tc))
  /\ _mcontext_data_fs (snd (plframe_cursor_thread_init thread images tc))
     = (if fst (thread_get_state thread x86_THREAD_STATE64
                  (_mcontext_data_ss tc)) =? KERN_SUCCESS
        then snd (thread_get_state thread x86_FLOAT_STATE64
                    (_mcontext_data_fs tc))
        else _mcontext_data_fs tc)
  /\ _mcontext_data_es (snd (plframe_cursor_thread_init thread images tc))
     = (if fst (thread_get_state thread x86_THREAD_STATE64
                  (_mcontext_data_ss tc)) =? KERN_SUCCESS
        then
          if fst (thread_get_state thread x86_FLOAT_STATE64
                    (_mcontext_data_fs tc)) =? KERN_SUCCESS
          then snd (thread_get_state thread x86_EXCEPTION_STATE64
                      (_mcontext_data_es tc))
          else _mcontext_data_es tc
        else _mcontext_data_es tc)
  /\ fetched (snd (plframe_cursor_thread_init thread images tc))
     = fetched tc
       ++ (if fst (thread_get_state thread x86_THREAD_STATE64
                     (_mcontext_data_ss tc)) =? KERN_SUCCESS
           then
             if fst (thread_get_state thread x86_FLOAT_STATE64
                       (_mcontext_data_fs tc)) =? KERN_SUCCESS
             then [x86_THREAD_STATE64; x86_FLOAT_STATE64;
                   x86_EXCEPTION_STATE64]
             else [x86_THREAD_STATE64; x86_FLOAT_STATE64]
           else [x86_THREAD_STATE64]).
Proof.
  intros Hfail.
  assert (Heta : forall c : plframe_cursor_t, set_uap c (uap c) = c)
    by (intros []; reflexivity).
  assert (Hcur : set_uap
                   (cur (if uap_is_own tc
                         then mk_world
                                (set_uap (cur (tc_world tc))
                                   (snd (thread_get_state thread
                                           x86_THREAD_STATE64
                                           (_mcontext_data_ss tc))))
                                (log (tc_world tc))
                         else tc_world tc))
                   (uap (cur (tc_world tc)))
                 = cur (tc_world tc)).
  { destruct (uap_is_own tc); [| apply Heta].
    cbn [cur]. destruct (cur (tc_world tc)); reflexivity. }
  assert (Hlog : log (if uap_is_own tc
                      then mk_world
                             (set_uap (cur (tc_world tc))
                                (snd (thread_get_state thread
                                        x86_THREAD_STATE64
                                        (_mcontext_data_ss tc))))
                             (log (tc_world tc))
                      else tc_world tc)
                 = log (tc_world tc))
    by (destruct (uap_is_own tc); reflexivity).
  assert (Hworld : uap_is_own tc = false ->
                   (if uap_is_own tc
                    then mk_world
                           (set_uap (cur (tc_world tc))
                              (snd (thread_get_state thread
                                      x86_THREAD_STATE64
                                      (_mcontext_data_ss tc))))
                           (log (tc_world tc))
                    else tc_world tc)
                   = tc_world tc)
    by (intros ->; reflexivity).
  unfold plframe_cursor_thread_init.
  cbn [store_sigmask store_ss store_fs store_es note_fetch tc_world uap_is_own
       _uap_data_sigmask _mcontext_data_ss _mcontext_data_fs
       _mcontext_data_es fetched].
  destruct (Z.eqb_spec
              (fst (thread_get_state thread x86_THREAD_STATE64
                      (_mcontext_data_ss tc))) KERN_SUCCESS) as [H1 | H1];
    cbn [negb fst snd store_sigmask store_ss store_fs store_es note_fetch
         tc_world uap_is_own _uap_data_sigmask _mcontext_data_ss
         _mcontext_data_fs _mcontext_data_es fetched].
  2:{ repeat split; assumption || reflexivity. }
  destruct (Z.eqb_spec
              (fst (thread_get_state thread x86_FLOAT_STATE64
                      (_mcontext_data_fs tc))) KERN_SUCCESS) as [H2 | H2];
    cbn [negb fst snd store_sigmask store_ss store_fs store_es note_fetch
         tc_world uap_is_own _uap_data_sigmask _mcontext_data_ss
         _mcontext_data_fs _mcontext_data_es fetched].
  2:{ rewrite <- app_assoc. repeat split; assumption || reflexivity. }
  destruct (Z.eqb_spec
              (fst (thread_get_state thread x86_EXCEPTION_STATE64
                      (_mcontext_data_es tc))) KERN_SUCCESS) as [H3 | H3];
    cbn [negb fst snd store_sigmask store_ss store_fs store_es note_fetch
         tc_world uap_is_own _uap_data_sigmask _mcontext_data_ss
         _mcontext_data_fs _mcontext_data_es fetched].
  - exfalso. destruct Hfail as [H | [H | H]]; contradiction.
  - rewrite <- !app_assoc. repeat split; assumption || reflexivity.
Qed.

(** X20.  Initialisation from a live thread.  When the three fetches
    return [KERN_SUCCESS], [plframe_cursor_thread_init] does what
    [plframe_cursor_init] does over the general-purpose state it fetched,
    and returns what it returns; the signal mask of the cursor's own context
    is cleared, the three buffers hold what the provider delivered, and the
    cursor points to its own context. *)
Theorem thread_init_success (thread : thread_t)
  (images : list plcrash_async_image_t) (tc : thread_cursor) :
  fst (thread_get_state thread x86_THREAD_STATE64 (_mcontext_data_ss tc))
    = KERN_SUCCESS ->
  fst (thread_get_state thread x86_FLOAT_STATE64 (_mcontext_data_fs tc))
    = KERN_SUCCESS ->
  fst (thread_get_state thread x86_EXCEPTION_STATE64 (_mcontext_data_es tc))
    = KERN_SUCCESS ->
  plframe_cursor_thread_init thread images tc
  = (fst (plframe_cursor_init
            (snd (thread_get_state thread x86_THREAD_STATE64
                    (_mcontext_data_ss tc))) images (tc_world tc)),
     mk_thread_cursor
       (snd (plframe_cursor_init
               (snd (thread_get_state thread x86_THREAD_STATE64
                       (_mcontext_data_ss tc))) images (tc_world tc)))
       true 0
       (snd (thread_get_state thread x86_THREAD_STATE64
               (_mcontext_data_ss tc)))
       (snd (thread_get_state thread x86_FLOAT_STATE64
               (_mcontext_data_fs tc)))
       (snd (thread_get_state thread x86_EXCEPTION_STATE64
               (_mcontext_data_es tc)))
       (fetched tc ++ [x86_THREAD_STATE64; x86_FLOAT_STATE64;
                       x86_EXCEPTION_STATE64]))
  /\ uap (cur (tc_world (snd (plframe_cursor_thread_init thread images tc))))
     = _mcontext_data_ss (snd (plframe_cursor_thread_init thread images tc)).
Proof.
  intros H1 H2 H3.
  unfold plframe_cursor_thread_init.
  cbn [store_sigmask store_ss store_fs store_es note_fetch tc_world uap_is_own
       _uap_data_sigmask _mcontext_data_ss _mcontext_data_fs
       _mcontext_data_es fetched].
  rewrite H1, H2, H3. change (negb (KERN_SUCCESS =? KERN_SUCCESS)) with false.
  cbv beta iota.
  cbn [store_sigmask store_ss store_fs store_es note_fetch tc_world uap_is_own
       _uap_data_sigmask _mcontext_data_ss _mcontext_data_fs
       _mcontext_data_es fetched].
  rewrite <- !app_assoc. cbn [app].
  unfold plframe_cursor_init. mstep.
  destruct (uap_is_own tc); cbn [cur log]; split; reflexivity.
Qed.

End ThreadInitClaims.

(** ** The earlier walker and the present one *)

Section LegacyClaims.
Context {UP : UnwindProvider} {AS : AsyncSupport}.

Lemma next_with_at_error (scan : M plframe_error_t) (w : world) :
  nframe (cur w) <> -1 ->
  endstack (cur w) = false ->
  fst (unw_step (unwcrsr (cur w))) < 0 ->
  plframe_cursor_next_with scan w
  = (Some (plframe_error_from_unwerror (fst (unw_step (unwcrsr (cur w))))),
     mk_world (stepped_cursor (cur w))
              (log w ++ [EvUnwGetReg UNW_REG_IP; EvUnwStep])).
Proof.
  intros Hn He Hstep.
  unfold plframe_cursor_next_with. mstep.
  apply Z.eqb_neq in Hn. rewrite Hn, He. fields.
  destruct (Z.ltb_spec (fst (unw_step (unwcrsr (cur w)))) 0); [| lia].
  unfold stepped_cursor. rewrite <- !app_assoc. reflexivity.
Qed.

Lemma next_with_at_more (scan : M plframe_error_t) (w : world) :
  nframe (cur w) <> -1 ->
  endstack (cur w) = false ->
  0 < fst (unw_step (unwcrsr (cur w))) ->
  plframe_cursor_next_with scan w
  = (Some PLFRAME_ESUCCESS,
     mk_world
       (set_last_valid_frame (stepped_cursor (cur w))
          (snd (unw_get_reg (snd (unw_step (unwcrsr (cur w)))) UNW_REG_IP)))
       (log w ++ [EvUnwGetReg UNW_REG_IP; EvUnwStep;
                  EvUnwGetReg UNW_REG_IP; EvUnwGetReg UNW_REG_IP])).
Proof.
  intros Hn He Hstep.
  unfold plframe_cursor_next_with. mstep.
  apply Z.eqb_neq in Hn. rewrite Hn, He. fields.
  destruct (Z.ltb_spec (fst (unw_step (unwcrsr (cur w)))) 0); [lia |].
  destruct (Z.eqb_spec (fst (unw_step (unwcrsr (cur w)))) 0); [lia |].
  fields. unfold stepped_cursor. rewrite <- !app_assoc. reflexivity.
Qed.

(** X21.  The present walker against the earlier one.  Take a cursor of
    each, at the same point of a walk over the same provider state.  Unless
    the provider is done on a repeated program counter (the case the
    scanner was added for), one call of the earlier
    [plframe_cursor_next] and one call of the present one return the same
    code and leave the two cursors at the same point again: the earlier
    walker's end mark [nframe = -2] corresponds to the end-of-stack flag. *)
Theorem legacy_next_simulation (fuel : nat) (old new : world) :
  walker_match (cur old) (cur new) ->
  ~ (0 <= nframe (cur old)
     /\ fst (unw_step (unwcrsr (cur new))) = 0
     /\ snd (unw_get_reg (snd (unw_step (unwcrsr (cur new)))) UNW_REG_IP)
        = snd (unw_get_reg (unwcrsr (cur new)) UNW_REG_IP)) ->
  fst (Legacy.plframe_cursor_next old) = fst (plframe_cursor_next fuel new)
  /\ walker_match (cur (snd (Legacy.plframe_cursor_next old)))
                  (cur (snd (plframe_cursor_next fuel new))).
Proof.
  intros [Hcrs Hpoint] Hnodup.
  unfold plframe_cursor_next, Legacy.plframe_cursor_next.
  destruct Hpoint as [(Ho & Hn & He) | [(Ho & Hn & He) | (Ho & Hn & He)]].
  - rewrite next_first_frame by exact Hn.
    mstep. rewrite Ho. change (-1 =? -1) with true. cbv beta iota.
    fields. split; [reflexivity |].
    split; [exact Hcrs |]. right. right. fields.
    split; [lia | split; [lia | exact He]].
  - rewrite next_at_end by (try assumption; lia).
    mstep. rewrite Ho. change (-2 =? -1) with false.
    change (-2 =? -2) with true. cbv beta iota. fields.
    split; [reflexivity |].
    split; [exact Hcrs |]. right. left. fields.
    split; [exact Ho | split; [exact Hn | exact He]].
  - mstep.
    destruct (Z.eqb_spec (nframe (cur old)) (-1)) as [Hx | _]; [lia |].
    destruct (Z.eqb_spec (nframe (cur old)) (-2)) as [Hx | _]; [lia |].
    fields. rewrite Hcrs.
    destruct (Z.lt_trichotomy (fst (unw_step (unwcrsr (cur new)))) 0)
      as [Hneg | [Hzero | Hpos]].
    + rewrite next_with_at_error by (try assumption; lia).
      destruct (Z.eqb_spec (fst (unw_step (unwcrsr (cur new)))) 0); [lia |].
      destruct (Z.ltb_spec (fst (unw_step (unwcrsr (cur new)))) 0); [| lia].
      fields. split; [reflexivity |].
      unfold stepped_cursor. split; [reflexivity |]. right. right. fields.
      split; [lia | split; [lia | exact He]].
    + rewrite next_with_at_true_end by (try assumption; lia).
      rewrite Hzero. change (0 =? 0) with true. cbv beta iota.
      fields. split; [reflexivity |].
      unfold stepped_cursor. split; [reflexivity |]. right. left. fields.
      split; [reflexivity | split; [lia | reflexivity]].
    + rewrite next_with_at_more by (try assumption; lia).
      destruct (Z.eqb_spec (fst (unw_step (unwcrsr (cur new)))) 0); [lia |].
      destruct (Z.ltb_spec (fst (unw_step (unwcrsr (cur new)))) 0); [lia |].
      fields. split; [reflexivity |].
      unfold stepped_cursor. split; [reflexivity |]. right. right. fields.
      split; [lia | split; [lia | exact He]].
Qed.

End LegacyClaims.

(** *** The further theorems at concrete inputs *)

Lemma get_regname_injective_witness :
  PLFRAME_X86_64_RFLAGS = PLFRAME_X86_64_RFLAGS /\ "rflags"%string <> ""%string.
Proof.
  apply (get_regname_injective PLFRAME_X86_64_RFLAGS PLFRAME_X86_64_RFLAGS
           "rflags"%string); reflexivity.
Defined.

Lemma get_reg_frame_0_rejects_unnamed_witness :
  (plframe_get_regname (PLFRAME_X86_64_OTHER 42) = None
   <-> @plframe_get_reg (scripted_provider []) unmapped
         (PLFRAME_X86_64_OTHER 42) (test_world [] 0 test_pc)
       = (Some (PLFRAME_ENOTSUP, None), test_world [] 0 test_pc))
  /\ (plframe_get_regname PLFRAME_X86_64_RSP = None
      <-> @plframe_get_reg (scripted_provider []) unmapped
            PLFRAME_X86_64_RSP (test_world [] 0 test_pc)
          = (Some (PLFRAME_ENOTSUP, None), test_world [] 0 test_pc)).
Proof.
  split.
  - apply (@get_reg_frame_0_rejects_unnamed (scripted_provider []) unmapped
             (test_world [] 0 test_pc) (PLFRAME_X86_64_OTHER 42)).
    reflexivity.
  - apply (@get_reg_frame_0_rejects_unnamed (scripted_provider []) unmapped
             (test_world [] 0 test_pc) PLFRAME_X86_64_RSP).
    reflexivity.
Defined.

Lemma get_reg_switch_injective_witness :
  PLFRAME_X86_64_RIP = PLFRAME_X86_64_RIP.
Proof.
  apply (get_reg_switch_injective test_state PLFRAME_X86_64_RIP
           PLFRAME_X86_64_RIP UNW_REG_IP); reflexivity.
Defined.

Lemma next_counts_every_call_witness :
  nframe (cur (snd (@plframe_cursor_next (scripted_provider [(-6540, 0)])
                      unmapped 10 (test_world [(-6540, 0)] 3 test_pc))))
  = nframe (cur (test_world [(-6540, 0)] 3 test_pc)) + 1.
Proof.
  apply (@next_counts_every_call (scripted_provider [(-6540, 0)]) unmapped
           10 (test_world [(-6540, 0)] 3 test_pc)).
  right. reflexivity.
Defined.

Lemma scan_stack_stops_at_fault_witness :
  fst (@plframe_cursor_scan_stack (scripted_provider []) short_support 10
         (test_world [] 1 test_pc))
  = Some PLFRAME_ENOFRAME
  /\ cur (snd (@plframe_cursor_scan_stack (scripted_provider [])
                 short_support 10 (test_world [] 1 test_pc)))
     = cur (test_world [] 1 test_pc)
  /\ exists es,
       log (snd (@plframe_cursor_scan_stack (scripted_provider [])
                   short_support 10 (test_world [] 1 test_pc)))
       = log (test_world [] 1 test_pc) ++ es
       /\ Z.of_nat (length (filter is_read_event es)) = 2 + 1.
Proof.
  apply (@scan_stack_stops_at_fault (scripted_provider []) short_support
           10 (test_world [] 1 test_pc) 2).
  - vm_compute. discriminate.
  - vm_compute. reflexivity.
  - vm_compute. split; discriminate.
  - intros i Hi.
    assert (Hcases : i = 0 \/ i = 1) by lia.
    destruct Hcases as [-> | ->].
    + exists 0. split; vm_compute; reflexivity.
    + exists 0x7fff5fbff200. split; vm_compute; reflexivity.
  - vm_compute. reflexivity.
  - vm_compute. lia.
Defined.

Lemma scan_stack_exhausts_window_witness :
  fst (@plframe_cursor_scan_stack (scripted_provider []) zero_filled 600
         (test_world [] 1 test_pc))
  = Some PLFRAME_ENOFRAME
  /\ cur (snd (@plframe_cursor_scan_stack (scripted_provider [])
                 zero_filled 600 (test_world [] 1 test_pc)))
     = cur (test_world [] 1 test_pc)
  /\ exists es,
       log (snd (@plframe_cursor_scan_stack (scripted_provider [])
                   zero_filled 600 (test_world [] 1 test_pc)))
       = log (test_world [] 1 test_pc) ++ es
       /\ length (filter is_read_event es) = 501%nat.
Proof.
  apply (@scan_stack_exhausts_window (scripted_provider []) zero_filled
           600 (test_world [] 1 test_pc)).
  - vm_compute. discriminate.
  - vm_compute. reflexivity.
  - intros i Hi. exists 0. split; reflexivity.
  - lia.
Defined.

Lemma scan_stack_success_is_first_match_witness :
  exists K,
    0 <= K <= search_space
    /\ @stack_word small_support
         (last_stack_pointer (cur (test_world [] 1 test_pc))) K
       = Some (last_valid_frame
                 (cur (snd (@plframe_cursor_scan_stack (scripted_provider [])
                              small_support 10 (test_world [] 1 test_pc)))))
    /\ fst (@plframe_cursor_address_looks_valid (scripted_provider [])
              (last_valid_frame
                 (cur (snd (@plframe_cursor_scan_stack (scripted_provider [])
                              small_support 10 (test_world [] 1 test_pc)))))
              (test_world [] 1 test_pc)) = Some true
    /\ last_stack_pointer
         (cur (snd (@plframe_cursor_scan_stack (scripted_provider [])
                      small_support 10 (test_world [] 1 test_pc))))
       = last_stack_pointer (cur (test_world [] 1 test_pc))
         + sizeof_greg * K + sizeof_greg
    /\ (forall i, 0 <= i < K ->
          exists v,
            @stack_word small_support
              (last_stack_pointer (cur (test_world [] 1 test_pc))) i = Some v
            /\ fst (@plframe_cursor_address_looks_valid (scripted_provider [])
                      v (test_world [] 1 test_pc)) = Some false).
Proof.
  apply (@scan_stack_success_is_first_match (scripted_provider [])
           small_support 10 (test_world [] 1 test_pc)).
  - vm_compute. discriminate.
  - vm_compute. reflexivity.
  - vm_compute. reflexivity.
Defined.

Lemma scan_stack_wrapped_window_witness :
  @plframe_cursor_scan_stack (scripted_provider []) zero_filled 1
    (stack_world 0xfffffffffffffff8)
  = (Some PLFRAME_ENOFRAME, stack_world 0xfffffffffffffff8).
Proof.
  apply (@scan_stack_wrapped_window (scripted_provider []) zero_filled 1
           (stack_world 0xfffffffffffffff8)).
  - vm_compute. split; [discriminate | reflexivity].
  - vm_compute. discriminate.
  - lia.
Defined.


Lemma thread_init_fetch_failure_witness :
  fst (@plframe_cursor_thread_init (scripted_provider []) unmapped
         (scripted_threads 0 5 0) tt test_images (used_thread_cursor 0 5 0))
  = Some PLFRAME_INTERNAL
  /\ fetched (snd (@plframe_cursor_thread_init (scripted_provider []) unmapped
                     (scripted_threads 0 5 0) tt test_images
                     (used_thread_cursor 0 5 0)))
     = [x86_THREAD_STATE64; x86_FLOAT_STATE64]
  /\ tc_world (snd (@plframe_cursor_thread_init (scripted_provider [])
                      unmapped (scripted_threads 0 5 0) tt test_images
                      (used_thread_cursor 0 5 0)))
     = tc_world (used_thread_cursor 0 5 0)
  /\ _uap_data_sigmask (used_thread_cursor 0 5 0) = 0xffff
  /\ _uap_data_sigmask
       (snd (@plframe_cursor_thread_init (scripted_provider []) unmapped
               (scripted_threads 0 5 0) tt test_images
               (used_thread_cursor 0 5 0)))
     = 0
  /\ _mcontext_data_ss
       (snd (@plframe_cursor_thread_init (scripted_provider []) unmapped
               (scripted_threads 0 5 0) tt test_images
               (used_thread_cursor 0 5 0)))
     = test_state.
Proof.
  destruct (@thread_init_fetch_failure (scripted_provider []) unmapped
              (scripted_threads 0 5 0) tt test_images
              (used_thread_cursor 0 5 0))
    as (Hres & _ & _ & Hworld & _ & Hmask & Hss & _ & _ & Hfetched).
  - right. left. vm_compute. discriminate.
  - split; [exact Hres |].
    split; [exact Hfetched |].
    split; [apply Hworld; reflexivity |].
    split; [reflexivity |].
    split; [exact Hmask | exact Hss].
Defined.

Lemma thread_init_success_witness :
  fst (@plframe_cursor_thread_init (scripted_provider []) unmapped
         (scripted_threads 0 0 0) tt test_images (used_thread_cursor 0 0 0))
  = Some PLFRAME_ESUCCESS
  /\ nframe (cur (tc_world
                    (snd (@plframe_cursor_thread_init (scripted_provider [])
                            unmapped (scripted_threads 0 0 0) tt test_images
                            (used_thread_cursor 0 0 0)))))
     = -1
  /\ uap (cur (tc_world
                 (snd (@plframe_cursor_thread_init (scripted_provider [])
                         unmapped (scripted_threads 0 0 0) tt test_images
                         (used_thread_cursor 0 0 0)))))
     = test_state.
Proof.
  destruct (@thread_init_success (scripted_provider []) unmapped
              (scripted_threads 0 0 0) tt test_images
              (used_thread_cursor 0 0 0) eq_refl eq_refl eq_refl)
    as [Hinit Hown].
  rewrite Hinit.
  split; [reflexivity | split; reflexivity].
Defined.

Lemma legacy_next_simulation_witness :
  fst (@Legacy.plframe_cursor_next (scripted_provider [(0, 0x100000b00)])
         unmapped (test_world [(0, 0x100000b00)] 2 test_pc))
  = fst (@plframe_cursor_next (scripted_provider [(0, 0x100000b00)])
           unmapped 10 (test_world [(0, 0x100000b00)] 2 test_pc))
  /\ walker_match
       (cur (snd (@Legacy.plframe_cursor_next
                    (scripted_provider [(0, 0x100000b00)]) unmapped
                    (test_world [(0, 0x100000b00)] 2 test_pc))))
       (cur (snd (@plframe_cursor_next
                    (scripted_provider [(0, 0x100000b00)]) unmapped 10
                    (test_world [(0, 0x100000b00)] 2 test_pc)))).
Proof.
  apply (@legacy_next_simulation (scripted_provider [(0, 0x100000b00)])
           unmapped 10
           (test_world [(0, 0x100000b00)] 2 test_pc)
           (test_world [(0, 0x100000b00)] 2 test_pc)).
  - split; [reflexivity |]. right. right.
    split; [vm_compute; discriminate | split; reflexivity].
  - intros (_ & _ & Hdup). vm_compute in Hdup. discriminate.
Defined.

(** ** Walks *)

Section WalkClaims.
Context {UP : UnwindProvider} {AS : AsyncSupport}.

(** X22.  What a walk keeps.  Throughout a walk, whatever the calls
    returned, the cursor holds the snapshot and the image list it was
    initialised with, [fp[0]] stays null, the frame index is at least [-1],
    and the end-of-stack flag is only ever set at a frame index of at least
    [0]. *)
Theorem session_invariant (ss : x86_thread_state64_t)
  (images : list plcrash_async_image_t) (w : world) :
  session ss images w ->
  uap (cur w) = ss
  /\ image_list (cur w) = images
  /\ fp0 (cur w) = 0
  /\ -1 <= nframe (cur w)
  /\ (endstack (cur w) = true -> 0 <= nframe (cur w)).
Proof.
  induction 1 as [w0
                 | w fuel e w' Hwalk (IHu & IHi & IHf & IHlo & IHend) Hnext
                 | w fuel e w' Hwalk (IHu & IHi & IHf & IHlo & IHend) Hscan].
  - unfold plframe_cursor_init. mstep.
    cbn [uap image_list fp0 nframe endstack].
    split; [reflexivity | split; [reflexivity | split; [reflexivity |]]].
    split; [lia | discriminate].
  - destruct (next_keeps_and_calls fuel w) as [(Hu & Hi & Hf) _].
    rewrite Hnext in Hu, Hi, Hf. cbn [snd] in Hu, Hi, Hf.
    rewrite Hu, Hi, Hf.
    split; [exact IHu | split; [exact IHi | split; [exact IHf |]]].
    destruct (Z.eq_dec (nframe (cur w)) (-1)) as [Hfirst | Hlater].
    + unfold plframe_cursor_next in Hnext.
      rewrite next_first_frame in Hnext by exact Hfirst.
      injection Hnext as _ <-. cbn [cur set_nframe nframe].
      split; [lia | intros _; lia].
    + destruct (endstack (cur w)) eqn:Hend.
      * unfold plframe_cursor_next in Hnext.
        rewrite next_at_end in Hnext by assumption.
        injection Hnext as _ <-. rewrite Hend.
        split; [exact IHlo | exact IHend].
      * pose proof (next_counts_frame fuel w Hlater Hend) as Hcount.
        rewrite Hnext in Hcount. cbn [snd] in Hcount. rewrite Hcount.
        split; [lia | intros _; lia].
  - pose proof (scan_stack_keeps_uap fuel w) as Hu.
    pose proof (scan_stack_keeps_rest fuel w) as [Hi Hf].
    pose proof (scan_stack_keeps_nframe fuel w) as Hn.
    pose proof (scan_stack_keeps_endstack fuel w) as He.
    rewrite Hscan in Hu, Hi, Hf, Hn, He. cbn [snd] in Hu, Hi, Hf, Hn, He.
    rewrite Hu, Hi, Hf, Hn, He.
    repeat split; assumption.
Qed.

(** X23.  After a step, the program counter of the frame.  At a frame
    ([0 <= nframe], flag clear): when the provider's step returns a positive
    value, [plframe_get_reg] for the program counter after the call gives
    the address the provider reports for the new frame; when the provider is
    done on a repeated program counter and the scanner returns
    [PLFRAME_ESUCCESS], it gives the word the scanner found.  In both cases
    the read calls nothing. *)
Theorem next_then_get_rip (fuel : nat) (w : world) :
  0 <= nframe (cur w) ->
  endstack (cur w) = false ->
  (0 < fst (unw_step (unwcrsr (cur w))) ->
   plframe_get_reg PLFRAME_X86_64_RIP (snd (plframe_cursor_next fuel w))
   = (Some (PLFRAME_ESUCCESS,
            Some (snd (unw_get_reg (snd (unw_step (unwcrsr (cur w))))
                         UNW_REG_IP))),
      snd (plframe_cursor_next fuel w)))
  /\ (fst (unw_step (unwcrsr (cur w))) = 0 ->
      snd (unw_get_reg (snd (unw_step (unwcrsr (cur w)))) UNW_REG_IP)
      = snd (unw_get_reg (unwcrsr (cur w)) UNW_REG_IP) ->
      fst (plframe_cursor_scan_stack fuel (world_at_scan w))
      = Some PLFRAME_ESUCCESS ->
      plframe_get_reg PLFRAME_X86_64_RIP (snd (plframe_cursor_next fuel w))
      = (Some (PLFRAME_ESUCCESS,
               Some (last_valid_frame
                       (cur (snd (plframe_cursor_scan_stack fuel
                                    (world_at_scan w)))))),
         snd (plframe_cursor_next fuel w))).
Proof.
  intros Hn He.
  assert (Hcount : nframe (cur (snd (plframe_cursor_next fuel w)))
                   = nframe (cur w) + 1)
    by (apply next_counts_frame; [lia | exact He]).
  assert (Hread : forall w1,
             nframe (cur w1) = nframe (cur w) + 1 ->
             plframe_get_reg PLFRAME_X86_64_RIP w1
             = (Some (PLFRAME_ESUCCESS, Some (last_valid_frame (cur w1))), w1)).
  { intros w1 H1. unfold plframe_get_reg. mstep.
    destruct (Z.eqb_spec (nframe (cur w1)) 0); [lia | reflexivity]. }
  split.
  - intros Hpos. rewrite (Hread _ Hcount).
    unfold plframe_cursor_next.
    rewrite next_with_at_more by (try assumption; lia).
    reflexivity.
  - intros Hzero Hdup Hscan. rewrite (Hread _ Hcount).
    unfold plframe_cursor_next.
    rewrite next_with_at_duplicate by (try assumption; lia).
    destruct (plframe_cursor_scan_stack fuel (world_at_scan w))
      as [result w2].
    cbn [fst snd] in *. rewrite Hscan. reflexivity.
Qed.

(** X24.  No image, no frame.  With an empty image list the validator
    accepts nothing, so [plframe_cursor_scan_stack] never returns
    [PLFRAME_ESUCCESS] and never changes the cursor. *)
Theorem scan_stack_without_images (fuel : nat) (w : world) :
  image_list (cur w) = [] ->
  fst (plframe_cursor_scan_stack fuel w) <> Some PLFRAME_ESUCCESS
  /\ cur (snd (plframe_cursor_scan_stack fuel w)) = cur w.
Proof.
  intros Hempty.
  destruct (scan_stack_effect fuel w) as [_ Hcur].
  destruct (fst (plframe_cursor_scan_stack fuel w)) as [[| | | | |] |];
    try contradiction; try (split; [discriminate | exact Hcur]).
  destruct Hcur as (loc & data & _ & Hvalid & _).
  rewrite Hempty in Hvalid. unfold looks_valid in Hvalid.
  cbn [existsb] in Hvalid. rewrite andb_false_r in Hvalid. discriminate.
Qed.

Lemma image_list_loop_count (address : Z) (l : list plcrash_async_image_t) :
  forall w, exists es,
    image_list_loop address l w
    = (Some (existsb (address_in_image address) l),
       mk_world (cur w) (log w ++ es))
    /\ (count_list_next es <= S (length l))%nat
    /\ (existsb (address_in_image address) l = false ->
        count_list_next es = S (length l)).
Proof.
  induction l as [| entry rest IH]; intros w; cbn [image_list_loop existsb].
  - exists [EvImageListNext]. mstep.
    split; [reflexivity | split; [cbn; lia | reflexivity]].
  - mstep. destruct (address_in_image address entry); cbn [orb].
    + exists [EvImageListNext].
      split; [reflexivity | split; [cbn; lia | discriminate]].
    + destruct (IH (mk_world (cur w) (log w ++ [EvImageListNext])))
        as (es & Heq & Hle & Hall).
      exists (EvImageListNext :: es). rewrite Heq. cbn [cur log].
      rewrite <- app_assoc. cbn [app].
      split; [reflexivity |].
      unfold count_list_next in *. cbn [filter length].
      split; [lia | intros Hnone; rewrite (Hall Hnone); reflexivity].
Qed.

(** X25.  The work of the validator.  One call of
    [plframe_cursor_address_looks_valid] over a list of [n] images makes at
    most [n+1] calls of [plcrash_async_image_list_next]: none for an address
    whose mask test is zero, and exactly [n+1] (the last one returning the
    end of the list) when the test is not zero and no image holds the
    address. *)
Theorem looks_valid_list_calls (address : Z) (w : world) :
  exists es,
    snd (plframe_cursor_address_looks_valid address w)
    = mk_world (cur w) (log w ++ es)
    /\ (count_list_next es <= S (length (image_list (cur w))))%nat
    /\ (Z.land address upper32_mask = 0 -> count_list_next es = 0%nat)
    /\ (Z.land address upper32_mask <> 0 ->
        fst (plframe_cursor_address_looks_valid address w) = Some false ->
        count_list_next es = S (length (image_list (cur w)))).
Proof.
  unfold plframe_cursor_address_looks_valid.
  destruct (Z.eqb_spec (Z.land address upper32_mask) 0) as [Hz | Hnz].
  - exists []. mstep. cbn [snd]. rewrite world_eta.
    split; [reflexivity |].
    split; [cbn; lia | split; [reflexivity | contradiction]].
  - mstep.
    destruct (image_list_loop_count address (image_list (cur w))
                (mk_world (cur w) (log w ++ [EvImageListSetReading true])))
      as (es & Heq & Hle & Hall).
    rewrite Heq. cbn [cur log fst snd].
    exists ([EvImageListSetReading true] ++ es ++ [EvImageListSetReading false]).
    assert (Hcount : count_list_next
                       ([EvImageListSetReading true] ++ es
                        ++ [EvImageListSetReading false])
                     = count_list_next es).
    { unfold count_list_next. rewrite !filter_app, !length_app.
      cbn [filter length]. lia. }
    rewrite Hcount.
    split; [rewrite <- !app_assoc; reflexivity |].
    split; [exact Hle | split; [contradiction |]].
    intros _ Hfalse. injection Hfalse as Hfalse. apply Hall. exact Hfalse.
Qed.

(** X26.  The end of the earlier walk.  At a frame of the earlier walker,
    when the provider's step returns [0], [Legacy.plframe_cursor_next]
    returns [PLFRAME_ESUCCESS] and marks the end with [nframe = -2]; from
    then on every call returns [PLFRAME_ENOFRAME], calls nothing and leaves
    the world as it was. *)
Theorem legacy_done_is_final (w : world) :
  0 <= nframe (cur w) ->
  fst (unw_step (unwcrsr (cur w))) = 0 ->
  fst (Legacy.plframe_cursor_next w) = Some PLFRAME_ESUCCESS
  /\ nframe (cur (snd (Legacy.plframe_cursor_next w))) = -2
  /\ log (snd (Legacy.plframe_cursor_next w)) = log w ++ [EvUnwStep]
  /\ (forall w', nframe (cur w') = -2 ->
        Legacy.plframe_cursor_next w' = (Some PLFRAME_ENOFRAME, w')).
Proof.
  intros Hn Hstep. unfold Legacy.plframe_cursor_next. mstep.
  destruct (Z.eqb_spec (nframe (cur w)) (-1)); [lia |].
  destruct (Z.eqb_spec (nframe (cur w)) (-2)); [lia |].
  fields. rewrite Hstep. change (0 =? 0) with true. cbv beta iota. fields.
  split; [reflexivity | split; [reflexivity | split; [reflexivity |]]].
  intros w' Hend. rewrite Hend. reflexivity.
Qed.

(** X27.  The two versions of the register read.  The earlier
    [plframe_get_reg] and the present one give the same result and leave the
    same world on frame 0, for every register identifier, and on the other
    frames for every identifier but the program counter (which the earlier
    version asks the provider for and the present one takes from
    [last_valid_frame]). *)
Theorem legacy_get_reg_agrees (w : world) (regnum : plframe_regnum_t) :
  nframe (cur w) = 0 \/ regnum <> PLFRAME_X86_64_RIP ->
  Legacy.plframe_get_reg regnum w = plframe_get_reg regnum w.
Proof.
  intros Hcase. unfold Legacy.plframe_get_reg, plframe_get_reg. mstep.
  destruct (Z.eqb_spec (nframe (cur w)) 0) as [Hz | Hnz]; cbn [negb].
  - reflexivity.
  - destruct Hcase as [Hz | Hreg]; [contradiction |].
    destruct regnum; try reflexivity. contradiction.
Qed.

End WalkClaims.

Lemma session_invariant_witness :
  uap (cur end_world) = test_state
  /\ image_list (cur end_world) = test_images
  /\ fp0 (cur end_world) = 0
  /\ -1 <= nframe (cur end_world)
  /\ (endstack (cur end_world) = true -> 0 <= nframe (cur end_world)).
Proof.
  apply (@session_invariant (scripted_provider [(0, 0x100000b00)]) unmapped
           test_state test_images end_world).
  apply (@session_next (scripted_provider [(0, 0x100000b00)]) unmapped
           test_state test_images
           (snd (@plframe_cursor_next (scripted_provider [(0, 0x100000b00)])
                   unmapped 10
                   (snd (@plframe_cursor_init
                           (scripted_provider [(0, 0x100000b00)]) unmapped
                           test_state test_images
                           (test_world [(0, 0x100000b00)] 7 0)))))
           10%nat PLFRAME_ESUCCESS).
  - apply (@session_next (scripted_provider [(0, 0x100000b00)]) unmapped
             test_state test_images
             (snd (@plframe_cursor_init
                     (scripted_provider [(0, 0x100000b00)]) unmapped
                     test_state test_images
                     (test_world [(0, 0x100000b00)] 7 0)))
             10%nat PLFRAME_ESUCCESS).
    + apply session_init.
    + vm_compute. reflexivity.
  - vm_compute. reflexivity.
Defined.

Lemma next_then_get_rip_witness :
  fst (@plframe_get_reg (scripted_provider [(1, 0x100000b00)]) unmapped
         PLFRAME_X86_64_RIP
         (snd (@plframe_cursor_next (scripted_provider [(1, 0x100000b00)])
                 unmapped 10 (test_world [(1, 0x100000b00)] 0 test_pc))))
  = Some (PLFRAME_ESUCCESS, Some 0x100000b00)
  /\ fst (@plframe_get_reg (scripted_provider []) small_support
            PLFRAME_X86_64_RIP
            (snd (@plframe_cursor_next (scripted_provider []) small_support
                    10 (test_world [] 1 test_pc))))
     = Some (PLFRAME_ESUCCESS, Some 0x100000f00).
Proof.
  split.
  - rewrite (proj1 (@next_then_get_rip (scripted_provider [(1, 0x100000b00)])
                      unmapped 10 (test_world [(1, 0x100000b00)] 0 test_pc)
                      ltac:(vm_compute; discriminate) eq_refl)
               ltac:(vm_compute; reflexivity)).
    reflexivity.
  - rewrite (proj2 (@next_then_get_rip (scripted_provider []) small_support
                      10 (test_world [] 1 test_pc)
                      ltac:(vm_compute; discriminate) eq_refl)
               eq_refl eq_refl ltac:(vm_compute; reflexivity)).
    vm_compute. reflexivity.
Defined.

Lemma scan_stack_without_images_witness :
  fst (@plframe_cursor_scan_stack (scripted_provider []) small_support 10
         (@mk_world (scripted_provider [])
            (@mk_cursor (scripted_provider []) test_state 1 0 [] false 0
               (__rsp test_state) test_pc (test_pc, [])) []))
  <> Some PLFRAME_ESUCCESS
  /\ cur (snd (@plframe_cursor_scan_stack (scripted_provider [])
                 small_support 10
                 (@mk_world (scripted_provider [])
                    (@mk_cursor (scripted_provider []) test_state 1 0 []
                       false 0 (__rsp test_state) test_pc (test_pc, [])) [])))
     = @mk_cursor (scripted_provider []) test_state 1 0 [] false 0
         (__rsp test_state) test_pc (test_pc, []).
Proof.
  apply (@scan_stack_without_images (scripted_provider []) small_support 10
           (@mk_world (scripted_provider [])
              (@mk_cursor (scripted_provider []) test_state 1 0 [] false 0
                 (__rsp test_state) test_pc (test_pc, [])) [])).
  reflexivity.
Defined.

Lemma legacy_done_is_final_witness :
  fst (@Legacy.plframe_cursor_next (scripted_provider []) unmapped
         (test_world [] 2 test_pc))
  = Some PLFRAME_ESUCCESS
  /\ @Legacy.plframe_cursor_next (scripted_provider []) unmapped
       (snd (@Legacy.plframe_cursor_next (scripted_provider []) unmapped
               (test_world [] 2 test_pc)))
     = (Some PLFRAME_ENOFRAME,
        snd (@Legacy.plframe_cursor_next (scripted_provider []) unmapped
               (test_world [] 2 test_pc))).
Proof.
  destruct (@legacy_done_is_final (scripted_provider []) unmapped
              (test_world [] 2 test_pc)
              ltac:(vm_compute; discriminate) eq_refl)
    as (Hres & Hend & _ & Hfinal).
  split; [exact Hres | apply Hfinal; exact Hend].
Defined.

Lemma legacy_get_reg_agrees_witness :
  @Legacy.plframe_get_reg (scripted_provider []) unmapped PLFRAME_X86_64_RSP
    (test_world [] 0 test_pc)
  = @plframe_get_reg (scripted_provider []) unmapped PLFRAME_X86_64_RSP
      (test_world [] 0 test_pc).
Proof.
  apply (@legacy_get_reg_agrees (scripted_provider []) unmapped
           (test_world [] 0 test_pc) PLFRAME_X86_64_RSP).
  left. reflexivity.
Defined.
